(** * globant-data-eng: departments, jobs, employees

    A shallow embedding of the CRUD services ([services/*.py]), the CSV
    upload endpoints ([api/endpoints/*.py]) and the hiring report, over a
    model of the SQLModel session and of the relational store the
    services talk to.

    Python instances carry dynamically typed attributes ([Value]); the
    store keeps typed rows, one table per entity, with the primary-key,
    not-null and foreign-key constraints declared in [models/*.py]. A
    value of the column's own type is stored as it is; what the store
    makes of a value of another type is its own business, and is left
    open ([Conversions]). Effects (the session, raised exceptions) are
    threaded through a state-and-exception monad [M]. *)

From stdpp Require Import base numbers list strings gmap functions sorting pretty.

Local Open Scope string_scope.

(** ** Values and model instances *)

(** [datetime.datetime], reduced to its calendar components. *)
Record datetime := Datetime {
  dt_year : Z; dt_month : Z; dt_day : Z;
  dt_hour : Z; dt_minute : Z; dt_second : Z
}.

(** A Python value as it may sit in an attribute, a CSV cell or a dict. *)
Inductive Value :=
| VNone
| VInt (z : Z)
| VStr (s : string)
| VDatetime (d : datetime).

Global Instance datetime_eq_dec : EqDecision datetime.
Proof. solve_decision. Defined.
Global Instance Value_eq_dec : EqDecision Value.
Proof. solve_decision. Defined.

(** The three table models of [models/]. *)
Inductive Entity := Department | Job | Employee.

Global Instance Entity_eq_dec : EqDecision Entity.
Proof. solve_decision. Defined.

(** Field names in declaration order ([cls.model_fields]). *)
Definition model_fields (c : Entity) : list string :=
  match c with
  | Department => ["id"; "department"]
  | Job => ["id"; "job"]
  | Employee => ["id"; "name"; "hire_datetime"; "department_id"; "job_id"]
  end.

(** Declared defaults: only [Job.id] has one ([Field(default=None, ...)]). *)
Definition field_default (c : Entity) (name : string) : option Value :=
  match c with
  | Job => if decide (name = "id") then Some VNone else None
  | _ => None
  end.

(** An instance of a table model: its attribute dict, the set of fields
    given explicitly ([model_fields_set]) and, once persistent, the
    primary key under which the session knows it. *)
Record Obj := MkObj {
  cls : Entity;
  attrs : gmap string Value;
  fields_set : gset string;
  identity : option Z
}.

(** Reading an attribute that was never set yields [None]. *)
Definition getattr (o : Obj) (k : string) : Value :=
  default VNone (attrs o !! k).

Definition setattr (o : Obj) (k : string) (v : Value) : Obj :=
  {| cls := cls o; attrs := <[k := v]> (attrs o);
     fields_set := {[k]} ∪ fields_set o; identity := identity o |}.

(** The constructor of a table model, called with keyword arguments:
    no validation; declared fields
    are taken from the keyword arguments, a missing field falls back to
    its default when it has one, keywords that name no field are dropped. *)
Definition construct_field (c : Entity) (kwargs : gmap string Value)
    (o : Obj) (name : string) : Obj :=
  match kwargs !! name with
  | Some v => setattr o name v
  | None =>
      match field_default c name with
      | Some d => {| cls := cls o; attrs := <[name := d]> (attrs o);
                     fields_set := fields_set o; identity := identity o |}
      | None => o
      end
  end.

Definition construct (c : Entity) (kwargs : list (string * Value)) : Obj :=
  foldl (construct_field c (list_to_map kwargs))
        {| cls := c; attrs := ∅; fields_set := ∅; identity := None |}
        (model_fields c).

(** [obj.model_dump(exclude_unset=True).items()]. *)
Definition model_dump_exclude_unset (o : Obj) : list (string * Value) :=
  omap (λ k, if decide (k ∈ fields_set o) then Some (k, getattr o k) else None)
       (model_fields (cls o)).

(** ** Exceptions *)

Inductive Exn :=
| DatabaseOperationError (message : string)
| ResourceNotFoundError (message : string)
| SQLAlchemyError (detail : string)
| KeyError (key : string)
| AttributeError (detail : string)
| OtherError (detail : string)
| HTTPException (status_code : Z) (detail : string).

Global Instance Exn_eq_dec : EqDecision Exn.
Proof. solve_decision. Defined.

(** [str(e)]. *)
Definition str (e : Exn) : string :=
  match e with
  | DatabaseOperationError m | ResourceNotFoundError m => m
  | SQLAlchemyError d | AttributeError d | OtherError d => d
  | KeyError k => "'" +:+ k +:+ "'"
  | HTTPException _ d => d
  end.

(** ** The relational store *)

Record DepartmentRow := MkDepartment { dep_id : Z; dep_department : string }.
Record JobRow := MkJob { job_id : Z; job_job : string }.
Record EmployeeRow := MkEmployee {
  emp_id : Z; emp_name : string; emp_hire_datetime : datetime;
  emp_department_id : Z; emp_job_id : Z
}.

Global Instance DepartmentRow_eq_dec : EqDecision DepartmentRow.
Proof. solve_decision. Defined.
Global Instance JobRow_eq_dec : EqDecision JobRow.
Proof. solve_decision. Defined.
Global Instance EmployeeRow_eq_dec : EqDecision EmployeeRow.
Proof. solve_decision. Defined.

(** What the store makes of a value that is not of the column's own type
    (a string bound to an integer column, an integer bound to a text
    column, ...): its input conversion for the column type, [None] when
    it refuses the value. The conversions belong to the store; the
    services never look at them. *)
Record Conversions := MkConversions {
  to_integer : Value → option Z;
  to_text : Value → option string;
  to_timestamp : Value → option datetime
}.

(** Committed state: three tables in the order the store lists them,
    and the store's input conversions. *)
Record Store := MkStore {
  departments : list DepartmentRow;
  jobs : list JobRow;
  employees : list EmployeeRow;
  conversions : Conversions
}.

(** A store that refuses every value that is not of the column's type. *)
Definition strict : Conversions :=
  MkConversions (λ _, None) (λ _, None) (λ _, None).

Definition empty_store : Store := MkStore [] [] [] strict.

Definition table_ids (c : Entity) (st : Store) : list Z :=
  match c with
  | Department => dep_id <$> departments st
  | Job => job_id <$> jobs st
  | Employee => emp_id <$> employees st
  end.

(** Column input. Every column is NOT NULL: [None] (SQL NULL) is
    refused. A value of the column's own type is taken as it is, any
    other value goes through the store's conversion. An INTEGER column
    holds 32-bit integers, a text column no NUL character. *)
Definition integer_input (st : Store) (v : Value) : option Z :=
  match match v with
        | VNone => None
        | VInt z => Some z
        | _ => to_integer (conversions st) v
        end with
  | Some z => if decide (-2147483648 ≤ z ≤ 2147483647)%Z then Some z else None
  | None => None
  end.

Definition text_input (st : Store) (v : Value) : option string :=
  match match v with
        | VNone => None
        | VStr x => Some x
        | _ => to_text (conversions st) v
        end with
  | Some x => if decide (Ascii.zero ∈ String.list_ascii_of_string x) then None else Some x
  | None => None
  end.

Definition timestamp_input (st : Store) (v : Value) : option datetime :=
  match v with
  | VNone => None
  | VDatetime d => Some d
  | _ => to_timestamp (conversions st) v
  end.

(** A row of any of the three tables. *)
Inductive Row :=
| RDepartment (r : DepartmentRow)
| RJob (r : JobRow)
| REmployee (r : EmployeeRow).

Global Instance Row_eq_dec : EqDecision Row.
Proof. solve_decision. Defined.

Definition row_cls (r : Row) : Entity :=
  match r with
  | RDepartment _ => Department | RJob _ => Job | REmployee _ => Employee
  end.

Definition row_id (r : Row) : Z :=
  match r with
  | RDepartment d => dep_id d | RJob j => job_id j | REmployee e => emp_id e
  end.

(** SELECT ... WHERE id = i. *)
Definition lookup_row (c : Entity) (i : Z) (st : Store) : option Row :=
  match c with
  | Department =>
      RDepartment <$> List.find (λ r, bool_decide (dep_id r = i)) (departments st)
  | Job => RJob <$> List.find (λ r, bool_decide (job_id r = i)) (jobs st)
  | Employee =>
      REmployee <$> List.find (λ r, bool_decide (emp_id r = i)) (employees st)
  end.

(** The column values an instance is INSERTed with, under primary key
    [i]; a value that a column does not take is refused by the store. *)
Definition bind_row (st : Store) (o : Obj) (i : Z) : string + Row :=
  match cls o with
  | Department =>
      match text_input st (getattr o "department") with
      | Some d => inr (RDepartment (MkDepartment i d))
      | None => inl "null or invalid value in column department"
      end
  | Job =>
      match text_input st (getattr o "job") with
      | Some j => inr (RJob (MkJob i j))
      | None => inl "null or invalid value in column job"
      end
  | Employee =>
      match text_input st (getattr o "name") with
      | None => inl "null or invalid value in column name"
      | Some n =>
          match timestamp_input st (getattr o "hire_datetime") with
          | None => inl "null or invalid value in column hire_datetime"
          | Some h =>
              match integer_input st (getattr o "department_id") with
              | None => inl "null or invalid value in column department_id"
              | Some d =>
                  match integer_input st (getattr o "job_id") with
                  | None => inl "null or invalid value in column job_id"
                  | Some j => inr (REmployee (MkEmployee i n h d j))
                  end
              end
          end
      end
  end.

(** The attribute dict a row is loaded into. *)
Definition load_row (r : Row) : gmap string Value :=
  match r with
  | RDepartment d =>
      list_to_map [("id", VInt (dep_id d)); ("department", VStr (dep_department d))]
  | RJob j => list_to_map [("id", VInt (job_id j)); ("job", VStr (job_job j))]
  | REmployee e =>
      list_to_map [("id", VInt (emp_id e)); ("name", VStr (emp_name e));
                   ("hire_datetime", VDatetime (emp_hire_datetime e));
                   ("department_id", VInt (emp_department_id e));
                   ("job_id", VInt (emp_job_id e))]
  end.

(** Foreign keys of a row: [employees.department_id -> departments.id] and
    [employees.job_id -> jobs.id]. *)
Definition fk_targets (r : Row) : list (Entity * Z) :=
  match r with
  | REmployee e => [(Department, emp_department_id e); (Job, emp_job_id e)]
  | _ => []
  end.

Definition fk_present (st : Store) (t : Entity * Z) : bool :=
  bool_decide (t.2 ∈ table_ids t.1 st).

(** Is row [key] of table [c] referenced by an employee? *)
Definition referenced (c : Entity) (key : Z) (st : Store) : bool :=
  match c with
  | Department => bool_decide (key ∈ emp_department_id <$> employees st)
  | Job => bool_decide (key ∈ emp_job_id <$> employees st)
  | Employee => false
  end.

Definition insert_row (st : Store) (r : Row) : Store :=
  match r with
  | RDepartment d =>
      MkStore (departments st ++ [d]) (jobs st) (employees st) (conversions st)
  | RJob j =>
      MkStore (departments st) (jobs st ++ [j]) (employees st) (conversions st)
  | REmployee e =>
      MkStore (departments st) (jobs st) (employees st ++ [e]) (conversions st)
  end.

(** An updated row is written as a new version of the row: the table
    lists it after the rows that were not touched. *)
Definition replace_row (st : Store) (key : Z) (r : Row) : Store :=
  match r with
  | RDepartment d =>
      MkStore (List.filter (λ x, negb (bool_decide (dep_id x = key))) (departments st)
               ++ [d])
              (jobs st) (employees st) (conversions st)
  | RJob j =>
      MkStore (departments st)
              (List.filter (λ x, negb (bool_decide (job_id x = key))) (jobs st) ++ [j])
              (employees st) (conversions st)
  | REmployee e =>
      MkStore (departments st) (jobs st)
              (List.filter (λ x, negb (bool_decide (emp_id x = key))) (employees st)
               ++ [e])
              (conversions st)
  end.

Definition remove_row (st : Store) (c : Entity) (key : Z) : Store :=
  match c with
  | Department =>
      MkStore (List.filter (λ x, negb (bool_decide (dep_id x = key))) (departments st))
              (jobs st) (employees st) (conversions st)
  | Job =>
      MkStore (departments st)
              (List.filter (λ x, negb (bool_decide (job_id x = key))) (jobs st))
              (employees st) (conversions st)
  | Employee =>
      MkStore (departments st) (jobs st)
              (List.filter (λ x, negb (bool_decide (emp_id x = key))) (employees st))
              (conversions st)
  end.

(** INSERT: unique primary key, foreign keys present. *)
Definition sql_insert (st : Store) (r : Row) : string + Store :=
  if bool_decide (row_id r ∈ table_ids (row_cls r) st)
  then inl "duplicate key value violates unique constraint"
  else if forallb (fk_present st) (fk_targets r)
  then inr (insert_row st r)
  else inl "insert violates foreign key constraint".

(** UPDATE ... WHERE id = key: the row must be there; a changed primary
    key must be free and the old one unreferenced; a changed foreign key
    must point at a row. *)
Definition sql_update (st : Store) (key : Z) (r : Row) : string + Store :=
  match lookup_row (row_cls r) key st with
  | None => inl "UPDATE statement expected to update 1 row; 0 were matched"
  | Some old =>
      if bool_decide (row_id r ≠ key) && bool_decide (row_id r ∈ table_ids (row_cls r) st)
      then inl "duplicate key value violates unique constraint"
      else if bool_decide (row_id r ≠ key) && referenced (row_cls r) key st
      then inl "update violates foreign key constraint: key is still referenced"
      else if forallb (λ t, bool_decide (t ∈ fk_targets old) || fk_present st t)
                      (fk_targets r)
      then inr (replace_row st key r)
      else inl "update violates foreign key constraint"
  end.

(** DELETE ... WHERE id = key. *)
Definition sql_delete (st : Store) (c : Entity) (key : Z) : string + Store :=
  match lookup_row c key st with
  | None => inl "DELETE statement expected to delete 1 row; 0 were matched"
  | Some _ =>
      if referenced c key st
      then inl "delete violates foreign key constraint: key is still referenced"
      else inr (remove_row st c key)
  end.

(** ** The session *)

(** Work registered with the session and not yet flushed. *)
Inductive Op := OpAdd (o : Obj) | OpDelete (o : Obj).

(** [db] is the committed state of the store. [id_source c] lists the ids
    the store will generate, in order, for rows of table [c] inserted
    without one (empty: the column has no generator). [pending] is the
    unit of work. *)
Record Session := MkSession {
  db : Store;
  id_source : Entity → list Z;
  pending : list Op
}.

(** The instance as the session leaves it after writing or reading row [r]. *)
Definition persistent (o : Obj) (r : Row) : Obj :=
  {| cls := cls o; attrs := load_row r; fields_set := fields_set o;
     identity := Some (row_id r) |}.

Definition loaded (r : Row) : Obj :=
  {| cls := row_cls r; attrs := load_row r; fields_set := ∅;
     identity := Some (row_id r) |}.

(** Primary key for an INSERT: the instance's own id, or a generated one
    when the id is [None]. *)
Definition insert_key (st : Store) (o : Obj) (gen : Entity → list Z)
    : option Z * (Entity → list Z) :=
  match getattr o "id" with
  | VNone =>
      match gen (cls o) with
      | i :: rest => (Some i, <[cls o := rest]> gen)
      | [] => (None, gen)
      end
  | v => (integer_input st v, gen)
  end.

(** An attribute of a persistent instance is modified when its value is
    not the one the row was loaded with; only modified attributes are
    written by an UPDATE. *)
Definition modified (o : Obj) (old : Row) (k : string) : bool :=
  bool_decide (getattr o k ≠ getattr (loaded old) k).

Definition set_integer (st : Store) (o : Obj) (old : Row) (k : string)
    (current : Z) : option Z :=
  if modified o old k then integer_input st (getattr o k) else Some current.

Definition set_text (st : Store) (o : Obj) (old : Row) (k : string)
    (current : string) : option string :=
  if modified o old k then text_input st (getattr o k) else Some current.

Definition set_timestamp (st : Store) (o : Obj) (old : Row) (k : string)
    (current : datetime) : option datetime :=
  if modified o old k then timestamp_input st (getattr o k) else Some current.

(** The row an UPDATE of the modified attributes of [o] turns [old]
    into; a value that a column does not take is refused by the store. *)
Definition update_row (st : Store) (o : Obj) (old : Row) : string + Row :=
  match old with
  | RDepartment d =>
      match set_integer st o old "id" (dep_id d) with
      | None => inl "null or invalid value in column id"
      | Some i =>
          match set_text st o old "department" (dep_department d) with
          | None => inl "null or invalid value in column department"
          | Some x => inr (RDepartment (MkDepartment i x))
          end
      end
  | RJob j =>
      match set_integer st o old "id" (job_id j) with
      | None => inl "null or invalid value in column id"
      | Some i =>
          match set_text st o old "job" (job_job j) with
          | None => inl "null or invalid value in column job"
          | Some x => inr (RJob (MkJob i x))
          end
      end
  | REmployee e =>
      match set_integer st o old "id" (emp_id e) with
      | None => inl "null or invalid value in column id"
      | Some i =>
          match set_text st o old "name" (emp_name e) with
          | None => inl "null or invalid value in column name"
          | Some n =>
              match set_timestamp st o old "hire_datetime" (emp_hire_datetime e) with
              | None => inl "null or invalid value in column hire_datetime"
              | Some h =>
                  match set_integer st o old "department_id" (emp_department_id e) with
                  | None => inl "null or invalid value in column department_id"
                  | Some d =>
                      match set_integer st o old "job_id" (emp_job_id e) with
                      | None => inl "null or invalid value in column job_id"
                      | Some j => inr (REmployee (MkEmployee i n h d j))
                      end
                  end
              end
          end
      end
  end.

(** Flushing one operation: a transient instance is INSERTed, a deleted
    one DELETEd; for a persistent instance the modified attributes are
    UPDATEd, and nothing is sent to the store when none is modified. *)
Definition flush_op (st : Store) (gen : Entity → list Z) (op : Op)
    : (string + Store * Obj) * (Entity → list Z) :=
  match op with
  | OpAdd o =>
      match identity o with
      | None =>
          let '(pk, gen') := insert_key st o gen in
          match pk with
          | None => (inl "null or invalid value in column id", gen')
          | Some i =>
              match bind_row st o i with
              | inl d => (inl d, gen')
              | inr r =>
                  match sql_insert st r with
                  | inl d => (inl d, gen')
                  | inr st' => (inr (st', persistent o r), gen')
                  end
              end
          end
      | Some key =>
          match lookup_row (cls o) key st with
          | None =>
              (inl "UPDATE statement expected to update 1 row; 0 were matched", gen)
          | Some old =>
              if existsb (modified o old) (model_fields (cls o))
              then
                match update_row st o old with
                | inl d => (inl d, gen)
                | inr r =>
                    match sql_update st key r with
                    | inl d => (inl d, gen)
                    | inr st' => (inr (st', persistent o r), gen)
                    end
                end
              else (inr (st, persistent o old), gen)
          end
      end
  | OpDelete o =>
      match identity o with
      | None => (inl "instance is not persisted", gen)
      | Some key =>
          match sql_delete st (cls o) key with
          | inl d => (inl d, gen)
          | inr st' => (inr (st', o), gen)
          end
      end
  end.

(** Flushing the unit of work in order, stopping at the first failure. *)
Fixpoint flush (ops : list Op) (st : Store) (gen : Entity → list Z)
    : (string + Store * list Obj) * (Entity → list Z) :=
  match ops with
  | [] => (inr (st, []), gen)
  | op :: ops' =>
      match flush_op st gen op with
      | (inl d, gen') => (inl d, gen')
      | (inr (st', o), gen') =>
          match flush ops' st' gen' with
          | (inl d, gen'') => (inl d, gen'')
          | (inr (st'', os), gen'') => (inr (st'', o :: os), gen'')
          end
      end
  end.

(** ** Computations: session state and exceptions *)

Definition M (A : Type) : Type := Session → (Exn + A) * Session.

Definition ret {A} (a : A) : M A := λ s, (inr a, s).
Definition raise {A} (e : Exn) : M A := λ s, (inl e, s).
Definition bind {A B} (m : M A) (k : A → M B) : M B :=
  λ s, match m s with
       | (inl e, s') => (inl e, s')
       | (inr a, s') => k a s'
       end.
(** [try: body  except Exception as e: handler e]. *)
Definition try_except {A} (body : M A) (handler : Exn → M A) : M A :=
  λ s, match body s with
       | (inl e, s') => handler e s'
       | (inr a, s') => (inr a, s')
       end.

Global Instance M_ret : MRet M := @ret.
Global Instance M_bind : MBind M := λ A B k m, bind m k.

(** [session.add(o)]. *)
Definition session_add (o : Obj) : M unit :=
  λ s, (inr (), MkSession (db s) (id_source s) (pending s ++ [OpAdd o])).

(** [session.delete(o)]. *)
Definition session_delete (o : Obj) : M unit :=
  λ s, (inr (), MkSession (db s) (id_source s) (pending s ++ [OpDelete o])).

(** [session.commit()]: flush and make the result durable, or leave the
    store as it was and raise. The flushed instances are updated in place
    by the session; here their new state is handed back. *)
Definition session_commit : M (list Obj) :=
  λ s, match flush (pending s) (db s) (id_source s) with
       | (inl d, gen) => (inl (SQLAlchemyError d), MkSession (db s) gen (pending s))
       | (inr (st, os), gen) => (inr os, MkSession st gen [])
       end.

(** [session.rollback()]: drop the unit of work. *)
Definition session_rollback : M unit :=
  λ s, (inr (), MkSession (db s) (id_source s) []).

(** [session.get(cls, id)]: the instance, or [None]. *)
Definition session_get (c : Entity) (i : Z) : M (option Obj) :=
  λ s, (inr (loaded <$> lookup_row c i (db s)), s).

(** [session.refresh(o)]: reload the attributes of a persistent instance. *)
Definition session_refresh (o : Obj) : M Obj :=
  λ s, match identity o with
       | None => (inl (SQLAlchemyError "instance is not persistent within this session"), s)
       | Some key =>
           match lookup_row (cls o) key (db s) with
           | None => (inl (SQLAlchemyError "could not refresh instance"), s)
           | Some r => (inr (persistent o r), s)
           end
       end.

(** The state in which the instance handed to [add] comes back from
    [commit]. *)
Definition flushed (o : Obj) (os : list Obj) : Obj := default o (last os).

(** The rows of a table, in the order the store returns them. *)
Definition table_rows (c : Entity) (st : Store) : list Row :=
  match c with
  | Department => RDepartment <$> departments st
  | Job => RJob <$> jobs st
  | Employee => REmployee <$> employees st
  end.

(** [session.exec(select(cls).offset(offset).limit(limit)).all()]: the
    store refuses a negative OFFSET or LIMIT. *)
Definition session_exec_select (c : Entity) (offset limit : Z) : M (list Obj) :=
  λ s, if decide (offset < 0)%Z
       then (inl (SQLAlchemyError "OFFSET must not be negative"), s)
       else if decide (limit < 0)%Z
       then (inl (SQLAlchemyError "LIMIT must not be negative"), s)
       else (inr (loaded <$> take (Z.to_nat limit)
                               (drop (Z.to_nat offset) (table_rows c (db s)))), s).

(** [session.close()]: what was not committed is dropped. *)
Definition session_close : M unit :=
  λ s, (inr (), MkSession (db s) (id_source s) []).

(** ** Python glue *)

(** Truth value of an instance-or-[None]: the models define neither
    [__bool__] nor [__len__], so every instance is true. *)
Definition truthy (v : option Obj) : bool :=
  match v with Some _ => true | None => false end.

(** Using a value as a mapped instance ([session.add(v)],
    [session.delete(v)]): [None] is refused. *)
Definition as_instance (v : option Obj) : M Obj :=
  match v with
  | Some o => mret o
  | None => raise (SQLAlchemyError "Class builtins.NoneType is not mapped")
  end.

(** [setattr(v, key, value)] on an instance-or-[None]. *)
Definition py_setattr (v : option Obj) (key : string) (value : Value)
    : M (option Obj) :=
  match v with
  | Some o => mret (Some (setattr o key value))
  | None => raise (AttributeError "NoneType object has no such attribute")
  end.

(** [for x in xs: acc = body(x, acc)]. *)
Fixpoint for_each {A S : Type} (xs : list A) (acc : S) (body : A → S → M S)
    : M S :=
  match xs with
  | [] => mret acc
  | x :: xs' => acc' ← body x acc; for_each xs' acc' body
  end.

(** [for key, value in items: setattr(target, key, value)]. *)
Definition setattr_items (target : option Obj) (items : list (string * Value))
    : M (option Obj) :=
  for_each items target (λ kv t, py_setattr t kv.1 kv.2).

(** ** services/department_service.py *)

Module DepartmentService.

Definition create (department : Obj) : M Obj :=
  try_except
    (session_add department;;
     os ← session_commit;
     department ← session_refresh (flushed department os);
     mret department)
    (λ e,
     session_rollback;;
     raise (DatabaseOperationError ("Error creating department: " +:+ str e))).

Definition get_by_id (department_id : Z) : M (option Obj) :=
  department ← session_get Department department_id;
  if negb (truthy department)
  then raise (ResourceNotFoundError
                ("Department with ID " +:+ pretty department_id +:+ " not found"))
  else mret department.

Definition get_all (offset limit : Z) : M (list Obj) :=
results ← session_exec_select Department offset limit;
mret results.

Definition update (department_id : Z) (department_update : Obj) : M (option Obj) :=
  try_except
    (existing_department ← get_by_id department_id;
     existing_department ←
       setattr_items existing_department
                     (model_dump_exclude_unset department_update);
     o ← as_instance existing_department;
     session_add o;;
     os ← session_commit;
     o ← session_refresh (flushed o os);
     mret (Some o))
    (λ e,
     session_rollback;;
     raise (DatabaseOperationError ("Error updating department: " +:+ str e))).

Definition delete (department_id : Z) : M unit :=
  department ← get_by_id department_id;
  if negb (truthy department)
  then raise (ResourceNotFoundError
                ("Department with ID " +:+ pretty department_id +:+ " not found"))
  else
    try_except
      (o ← as_instance department;
       session_delete o;;
       _ ← session_commit;
       mret ())
      (λ e,
       session_rollback;;
       raise (DatabaseOperationError ("Error deleting department: " +:+ str e))).

End DepartmentService.

(** ** services/job_service.py *)

Module JobService.

Definition create (job : Obj) : M Obj :=
  try_except
    (session_add job;;
     os ← session_commit;
     job ← session_refresh (flushed job os);
     mret job)
    (λ e,
     session_rollback;;
     raise (DatabaseOperationError ("Error creating job: " +:+ str e))).

Definition get_by_id (job_id : Z) : M (option Obj) :=
  job ← session_get Job job_id;
  if negb (truthy job)
  then raise (ResourceNotFoundError
                ("Job with ID " +:+ pretty job_id +:+ " not found"))
  else mret job.

Definition get_all (offset limit : Z) : M (list Obj) :=
results ← session_exec_select Job offset limit;
mret results.

Definition update (job_id : Z) (job_update : Obj) : M (option Obj) :=
  existing_job ← get_by_id job_id;
  if negb (truthy existing_job)
  then mret None
  else
    try_except
      (existing_job ←
         setattr_items existing_job (model_dump_exclude_unset job_update);
       o ← as_instance existing_job;
       session_add o;;
       os ← session_commit;
       o ← session_refresh (flushed o os);
       mret (Some o))
      (λ e,
       session_rollback;;
       raise (DatabaseOperationError ("Error updating job: " +:+ str e))).

Definition delete (job_id : Z) : M unit :=
  try_except
    (job ← get_by_id job_id;
     o ← as_instance job;
     session_delete o;;
     _ ← session_commit;
     mret ())
    (λ e,
     session_rollback;;
     raise (DatabaseOperationError ("Error deleting job: " +:+ str e))).

End JobService.

(** ** The hiring report query *)

(** The attributes a mapped column offers to a statement: the
    comparison, ordering and labelling operators the ORM defines on a
    column expression. Calendar and aggregate functions are functions of
    the library ([extract], [func.count]), not attributes of a column. *)
Definition column_operators : list string :=
  ["label"; "asc"; "desc"; "in_"; "not_in"; "notin_"; "is_"; "is_not"; "isnot";
   "is_distinct_from"; "like"; "not_like"; "notlike"; "ilike"; "not_ilike";
   "notilike"; "startswith"; "endswith"; "contains"; "match"; "between";
   "distinct"; "collate"; "concat"; "op"; "bool_op"; "operate";
   "reverse_operate"; "nulls_first"; "nulls_last"; "nullsfirst"; "nullslast";
   "any_"; "all_"; "key"; "type"; "expression"; "comparator"; "property"].

(** [column.name], as in [col(Employee.hire_datetime).quarter]: an
    attribute the column does not have raises [AttributeError]. *)
Definition column_getattr (column name : string) : M unit :=
  if decide (name ∈ column_operators) then mret ()
  else raise (AttributeError
                ("Neither 'InstrumentedAttribute' object nor 'Comparator' object "
                 +:+ "associated with " +:+ column +:+ " has an attribute '"
                 +:+ name +:+ "'")).

(** Column functions the statement asks for: calendar year and quarter
    of a timestamp (quarter 1 is January to March, ..., quarter 4 October
    to December). *)
Definition sql_year (d : datetime) : Z := dt_year d.
Definition sql_quarter (d : datetime) : Z := ((dt_month d - 1) `div` 3 + 1)%Z.

(** GROUP BY with COUNT: one group per distinct key, each with the number
    of rows that carry the key. *)
Fixpoint count_into {K} `{EqDecision K} (k : K) (groups : list (K * nat))
    : list (K * nat) :=
  match groups with
  | [] => [(k, 1)]
  | (k', n) :: groups' =>
      if decide (k = k') then (k', S n) :: groups'
      else (k', n) :: count_into k groups'
  end.

Definition group_count {K} `{EqDecision K} (keys : list K) : list (K * nat) :=
  foldl (λ groups k, count_into k groups) [] keys.

(** ORDER BY three integer columns, ascending. *)
Definition key_le (a b : Z * Z * Z) : Prop :=
  (a.1.1 < b.1.1 ∨
   (a.1.1 = b.1.1 ∧ (a.1.2 < b.1.2 ∨ (a.1.2 = b.1.2 ∧ a.2 ≤ b.2))))%Z.

Global Instance key_le_dec : RelDecision key_le.
Proof. intros a b. unfold key_le. apply _. Defined.

Definition group_le (g h : Z * Z * Z * nat) : Prop := key_le g.1 h.1.

Global Instance group_le_dec : RelDecision group_le.
Proof. intros g h. unfold group_le. apply _. Defined.

(** A result row: [{department_id, job_id, quarter, hired_count}]. *)
Record HiredRow := MkHired {
  h_department_id : Z; h_job_id : Z; h_quarter : Z; h_hired_count : nat
}.

Global Instance HiredRow_eq_dec : EqDecision HiredRow.
Proof. solve_decision. Defined.

Definition hires_key (e : EmployeeRow) : Z * Z * Z :=
  (emp_department_id e, emp_job_id e, sql_quarter (emp_hire_datetime e)).

Definition hired_row (g : Z * Z * Z * nat) : HiredRow :=
  MkHired g.1.1.1 g.1.1.2 g.1.2 g.2.

(** SELECT department_id, job_id, quarter(hire_datetime) AS quarter,
    count(id) AS hired_count FROM employees
    WHERE year(hire_datetime) = :year
    GROUP BY department_id, job_id, quarter
    ORDER BY department_id, job_id, quarter. *)
Definition hires_statement (year : Z) (emps : list EmployeeRow) : list HiredRow :=
  let selected := List.filter (λ e, bool_decide (sql_year (emp_hire_datetime e) = year)) emps in
  let grouped := group_count (hires_key <$> selected) in
  hired_row <$> merge_sort group_le grouped.

(** [session.exec(statement).all()] for the statement above, once it is
    built. *)
Definition session_exec_hires (year : Z) : M (list HiredRow) :=
  λ s, (inr (hires_statement year (employees (db s))), s).

(** ** services/employee_service.py *)

Module EmployeeService.

Definition create (employee : Obj) : M Obj :=
  try_except
    (session_add employee;;
     os ← session_commit;
     employee ← session_refresh (flushed employee os);
     mret employee)
    (λ e,
     session_rollback;;
     raise (DatabaseOperationError ("Error creating employee: " +:+ str e))).

Definition get_by_id (employee_id : Z) : M (option Obj) :=
  employee ← session_get Employee employee_id;
  if negb (truthy employee)
  then raise (ResourceNotFoundError
                ("Employee with ID " +:+ pretty employee_id +:+ " not found"))
  else mret employee.

Definition get_all (offset limit : Z) : M (list Obj) :=
results ← session_exec_select Employee offset limit;
mret results.

Definition update (employee_id : Z) (employee_update : Obj) : M (option Obj) :=
  existing_employee ← get_by_id employee_id;
  if negb (truthy existing_employee)
  then mret None
  else
    try_except
      (existing_employee ←
         setattr_items existing_employee
                       (model_dump_exclude_unset employee_update);
       o ← as_instance existing_employee;
       session_add o;;
       os ← session_commit;
       o ← session_refresh (flushed o os);
       mret (Some o))
      (λ e,
       session_rollback;;
       raise (DatabaseOperationError ("Error updating employee: " +:+ str e))).

Definition delete (employee_id : Z) : M unit :=
  try_except
    (employee ← get_by_id employee_id;
     o ← as_instance employee;
     session_delete o;;
     _ ← session_commit;
     mret ())
    (λ e,
     session_rollback;;
     raise (DatabaseOperationError ("Error deleting employee: " +:+ str e))).

(** The statement is built inside the [try]: its [select] looks up
    [quarter] on the hire date column and [count] on the id column, its
    [where] looks up [year]; then it is executed. *)
Definition get_hired_by_quarter (year : Z) : M (list HiredRow) :=
  try_except
    (column_getattr "Employee.hire_datetime" "quarter";;
     column_getattr "Employee.id" "count";;
     column_getattr "Employee.hire_datetime" "year";;
     results ← session_exec_hires year;
     mret results)
    (λ e,
     raise (DatabaseOperationError
              ("Error retrieving hiring statistics: " +:+ str e))).

End EmployeeService.

(** ** api/endpoints: the CSV uploads *)

(** An uploaded file: what [await file.read()] yields, bytes or an
    exception. *)
Record UploadFile := MkUpload { upload_read : Exn + string }.

Definition file_read (file : UploadFile) : M string :=
  match upload_read file with
  | inl e => raise e
  | inr contents => mret contents
  end.

(** A row of the data frame ([Series]): column label to cell. *)
Definition getitem (row : gmap string Value) (label : string) : M Value :=
  match row !! label with
  | Some v => mret v
  | None => raise (KeyError label)
  end.

(** The response body of a successful upload. *)
Definition upload_report (successful_imports failed_imports : nat)
    : list (string * string) :=
  [("status", "success");
   ("successful_imports", pretty successful_imports);
   ("failed_imports", pretty failed_imports)].

Section Endpoints.

(** [pd.read_csv(io.BytesIO(contents), names=names)]: the rows of the
    table, or a parser error. *)
Variable read_csv : string → list string → Exn + list (gmap string Value).

Definition pd_read_csv (contents : string) (names : list string)
    : M (list (gmap string Value)) :=
  match read_csv contents names with
  | inl e => raise e
  | inr df => mret df
  end.

(** What the three loops try for a row: build the instance from the
    cells and hand it to the service. *)
Definition attempt_department (row : gmap string Value) : M Obj :=
  id ← getitem row "id";
  name ← getitem row "department";
  DepartmentService.create
    (construct Department [("id", id); ("department", name)]).

Definition attempt_job (row : gmap string Value) : M Obj :=
  id ← getitem row "id";
  title ← getitem row "job";
  JobService.create (construct Job [("id", id); ("job", title)]).

(** The employee loop passes the third column under the keyword
    [datetime]. *)
Definition attempt_employee (row : gmap string Value) : M Obj :=
  id ← getitem row "id";
  name ← getitem row "name";
  dt ← getitem row "datetime";
  department_id ← getitem row "department_id";
  job_id ← getitem row "job_id";
  EmployeeService.create
    (construct Employee
       [("id", id); ("name", name); ("datetime", dt);
        ("department_id", department_id); ("job_id", job_id)]).

(** One turn of [for _, row in df.iterrows()]: the attempt under its own
    [try]/[except Exception], bumping one of the two counters. *)
Definition import_row (attempt : gmap string Value → M Obj)
    (row : gmap string Value) (counts : nat * nat) : M (nat * nat) :=
  try_except
    (_ ← attempt row;
     mret (S counts.1, counts.2))
    (λ _, mret (counts.1, S counts.2)).

(** The body shared by the three upload endpoints. *)
Definition upload_csv (names : list string)
    (attempt : gmap string Value → M Obj) (file : UploadFile)
    : M (list (string * string)) :=
  try_except
    (contents ← file_read file;
     df ← pd_read_csv contents names;
     counts ← for_each df (0, 0) (import_row attempt);
     _ ← session_commit;
     mret (upload_report counts.1 counts.2))
    (λ e,
     session_rollback;;
     raise (HTTPException 500 (str e))).

Definition upload_department_csv : UploadFile → M (list (string * string)) :=
  upload_csv ["id"; "department"] attempt_department.

Definition upload_job_csv : UploadFile → M (list (string * string)) :=
  upload_csv ["id"; "job"] attempt_job.

Definition upload_employee_csv : UploadFile → M (list (string * string)) :=
  upload_csv ["id"; "name"; "datetime"; "department_id"; "job_id"]
             attempt_employee.

End Endpoints.

(** ** api/endpoints: the CRUD routes *)

(** [try: body  except (C1, ...) as e: handler e]: an exception of
    another class passes through. *)
Definition try_except_of {A} (catches : Exn → bool) (body : M A)
    (handler : Exn → M A) : M A :=
  λ s, match body s with
       | (inl e, s') => if catches e then handler e s' else (inl e, s')
       | (inr a, s') => (inr a, s')
       end.

Definition is_DatabaseOperationError (e : Exn) : bool :=
  match e with DatabaseOperationError _ => true | _ => false end.

Definition is_ResourceNotFoundError (e : Exn) : bool :=
  match e with ResourceNotFoundError _ => true | _ => false end.

(** A query parameter left out of the request takes its default. *)
Definition query_param (given : option Z) (default_value : Z) : Z :=
  default default_value given.

Module DepartmentRoutes.

Definition create_department (department : Obj) : M Obj :=
  try_except_of is_DatabaseOperationError
    (DepartmentService.create department)
    (λ e, raise (HTTPException 400 (str e))).

Definition get_department (department_id : Z) : M (option Obj) :=
  try_except_of is_ResourceNotFoundError
    (DepartmentService.get_by_id department_id)
    (λ e, raise (HTTPException 404 (str e))).

Definition list_departments (offset limit : option Z) : M (list Obj) :=
  DepartmentService.get_all (query_param offset 0) (query_param limit 100).

Definition update_department (department_id : Z) (department_update : Obj)
    : M (option Obj) :=
  try_except_of (λ e, is_ResourceNotFoundError e || is_DatabaseOperationError e)
    (DepartmentService.update department_id department_update)
    (λ e, raise (HTTPException 400 (str e))).

Definition delete_department (department_id : Z) : M unit :=
  try_except_of (λ e, is_ResourceNotFoundError e || is_DatabaseOperationError e)
    (DepartmentService.delete department_id)
    (λ e, raise (HTTPException 400 (str e))).

End DepartmentRoutes.

Module JobRoutes.

Definition create_job (job : Obj) : M Obj :=
  try_except_of is_DatabaseOperationError
    (JobService.create job)
    (λ e, raise (HTTPException 400 (str e))).

Definition get_job (job_id : Z) : M (option Obj) :=
  try_except_of is_ResourceNotFoundError
    (JobService.get_by_id job_id)
    (λ e, raise (HTTPException 404 (str e))).

Definition list_jobs (offset limit : option Z) : M (list Obj) :=
  JobService.get_all (query_param offset 0) (query_param limit 100).

Definition update_job (job_id : Z) (job_update : Obj) : M (option Obj) :=
  try_except_of (λ e, is_ResourceNotFoundError e || is_DatabaseOperationError e)
    (JobService.update job_id job_update)
    (λ e, raise (HTTPException 400 (str e))).

Definition delete_job (job_id : Z) : M unit :=
  try_except_of (λ e, is_ResourceNotFoundError e || is_DatabaseOperationError e)
    (JobService.delete job_id)
    (λ e, raise (HTTPException 400 (str e))).

End JobRoutes.

Module EmployeeRoutes.

Definition create_employee (employee : Obj) : M Obj :=
  try_except_of is_DatabaseOperationError
    (EmployeeService.create employee)
    (λ e, raise (HTTPException 400 (str e))).

Definition get_employee (employee_id : Z) : M (option Obj) :=
  try_except_of is_ResourceNotFoundError
    (EmployeeService.get_by_id employee_id)
    (λ e, raise (HTTPException 404 (str e))).

Definition list_employees (offset limit : option Z) : M (list Obj) :=
  EmployeeService.get_all (query_param offset 0) (query_param limit 100).

Definition update_employee (employee_id : Z) (employee_update : Obj)
    : M (option Obj) :=
  try_except_of (λ e, is_ResourceNotFoundError e || is_DatabaseOperationError e)
    (EmployeeService.update employee_id employee_update)
    (λ e, raise (HTTPException 400 (str e))).

Definition delete_employee (employee_id : Z) : M unit :=
  try_except_of (λ e, is_ResourceNotFoundError e || is_DatabaseOperationError e)
    (EmployeeService.delete employee_id)
    (λ e, raise (HTTPException 400 (str e))).

Definition get_hired_by_quarter (year : Z) : M (list HiredRow) :=
  try_except
    (EmployeeService.get_hired_by_quarter year)
    (λ e, raise (HTTPException 400 (str e))).

End EmployeeRoutes.

(** ** core/database.py *)

(** [get_session], driven around a route that depends on it: a session
    opened on the engine's database with nothing pending is handed to the
    route, and closed when the route is done, whatever its outcome. *)
Definition get_session {A} (st : Store) (gen : Entity → list Z) (route : M A)
    : (Exn + A) * Session :=
  let session := MkSession st gen [] in
  let '(result, session) := route session in
  (result, (session_close session).2).

(** * Vocabulary of the statements *)

(** ** The three services, by entity *)

(** The exception [get_by_id] raises for an id without a row. *)
Definition entity_name (c : Entity) : string :=
  match c with
  | Department => "Department" | Job => "Job" | Employee => "Employee"
  end.

Definition not_found (c : Entity) (i : Z) : Exn :=
  ResourceNotFoundError (entity_name c +:+ " with ID " +:+ pretty i +:+ " not found").

Definition get_by_id_of (c : Entity) : Z → M (option Obj) :=
  match c with
  | Department => DepartmentService.get_by_id
  | Job => JobService.get_by_id
  | Employee => EmployeeService.get_by_id
  end.

(** The write-and-reload sequence shared by [create] and [update]:
    [add], [commit], [refresh], starting from a session with no pending
    work. *)
Definition write_back (o : Obj) : M Obj :=
  session_add o;; os ← session_commit; session_refresh (flushed o os).

(** The body the three [create] methods share, up to the message prefix. *)
Definition create_shape (prefix : string) (o : Obj) : M Obj :=
  try_except
    (o' ← write_back o; mret o')
    (λ e, session_rollback;; raise (DatabaseOperationError (prefix +:+ str e))).

Definition create_of (c : Entity) : Obj → M Obj :=
  match c with
  | Department => DepartmentService.create
  | Job => JobService.create
  | Employee => EmployeeService.create
  end.

Definition create_prefix (c : Entity) : string :=
  match c with
  | Department => "Error creating department: "
  | Job => "Error creating job: "
  | Employee => "Error creating employee: "
  end.

Definition update_of (c : Entity) : Z → Obj → M (option Obj) :=
  match c with
  | Department => DepartmentService.update
  | Job => JobService.update
  | Employee => EmployeeService.update
  end.

Definition delete_of (c : Entity) : Z → M unit :=
  match c with
  | Department => DepartmentService.delete
  | Job => JobService.delete
  | Employee => EmployeeService.delete
  end.

Definition update_prefix (c : Entity) : string :=
  match c with
  | Department => "Error updating department: "
  | Job => "Error updating job: "
  | Employee => "Error updating employee: "
  end.

Definition delete_prefix (c : Entity) : string :=
  match c with
  | Department => "Error deleting department: "
  | Job => "Error deleting job: "
  | Employee => "Error deleting employee: "
  end.

(** The instance [update] writes back: the stored one with the fields the
    payload sets explicitly laid over it. *)
Definition patched (existing payload : Obj) : Obj :=
  foldl (λ o kv, setattr o kv.1 kv.2) existing (model_dump_exclude_unset payload).

(** The [try] body of [update] once the lookup has produced [existing]. *)
Definition patch_body (existing : option Obj) (payload : Obj) : M (option Obj) :=
  existing ← setattr_items existing (model_dump_exclude_unset payload);
  o ← as_instance existing;
  session_add o;;
  os ← session_commit;
  o ← session_refresh (flushed o os);
  mret (Some o).

(** ** What the store holds for a value *)

(** The declared type of a field ([models/*.py]): [int] for the id and
    the two foreign keys, [datetime] for the hire date, [str] for the
    rest. *)
Inductive ColumnType := Integer | Text | Timestamp.

Definition column_type (c : Entity) (k : string) : option ColumnType :=
  if decide (k ∈ model_fields c)
  then Some (if decide (k ∈ ["id"; "department_id"; "job_id"]) then Integer
             else if decide (k = "hire_datetime") then Timestamp
             else Text)
  else None.

(** The value the store holds, and hands back on a read, once [v] has
    been written to field [k] of table [c]; [None] when the column
    refuses [v]. *)
Definition column_value (st : Store) (c : Entity) (k : string) (v : Value)
    : option Value :=
  match column_type c k with
  | Some Integer => VInt <$> integer_input st v
  | Some Text => VStr <$> text_input st v
  | Some Timestamp => VDatetime <$> timestamp_input st v
  | None => None
  end.

(** The fields under a key constraint: the primary key and, for an
    employee, the two foreign keys. *)
Definition key_fields (c : Entity) : list string :=
  match c with
  | Employee => ["id"; "department_id"; "job_id"]
  | _ => ["id"]
  end.

(** ** The three uploads, by entity *)

Definition attempt_of (c : Entity) : gmap string Value → M Obj :=
  match c with
  | Department => attempt_department
  | Job => attempt_job
  | Employee => attempt_employee
  end.

Definition names_of (c : Entity) : list string :=
  match c with
  | Department => ["id"; "department"]
  | Job => ["id"; "job"]
  | Employee => ["id"; "name"; "datetime"; "department_id"; "job_id"]
  end.

Definition upload_of (read_csv : string → list string → Exn + list (gmap string Value))
    (c : Entity) : UploadFile → M (list (string * string)) :=
  match c with
  | Department => upload_department_csv read_csv
  | Job => upload_job_csv read_csv
  | Employee => upload_employee_csv read_csv
  end.

(** The response of a failed request: status 500 with the error text, the
    session rolled back. *)
Definition server_error (e : Exn) (s : Session) : (Exn + list (string * string)) * Session :=
  (inl (HTTPException 500 (str e)), MkSession (db s) (id_source s) []).

(** The import in the words of the specification: every row is
    attempted in turn, in the session the attempt before it left behind,
    whether that attempt failed or not; each attempt has its outcome. *)
Fixpoint row_outcomes (attempt : gmap string Value → M Obj)
    (rows : list (gmap string Value)) (s : Session)
    : list (Exn + Obj) * Session :=
  match rows with
  | [] => ([], s)
  | row :: rows' =>
      let '(outcome, s1) := attempt row s in
      let '(outcomes, s') := row_outcomes attempt rows' s1 in
      (outcome :: outcomes, s')
  end.

Definition successes (outcomes : list (Exn + Obj)) : nat :=
  length (List.filter (λ x, match x with inr _ => true | inl _ => false end) outcomes).

Definition failures (outcomes : list (Exn + Obj)) : nat :=
  length (List.filter (λ x, match x with inr _ => false | inl _ => true end) outcomes).

(** ** The routes by entity *)

(** A computation whose exceptions all satisfy [P]. *)
Definition raises_only {A} (P : Exn → Prop) (m : M A) : Prop :=
  ∀ s e s', m s = (inl e, s') → P e.

Definition get_all_of (c : Entity) : Z → Z → M (list Obj) :=
  match c with
  | Department => DepartmentService.get_all
  | Job => JobService.get_all
  | Employee => EmployeeService.get_all
  end.

Definition create_route (c : Entity) : Obj → M Obj :=
  match c with
  | Department => DepartmentRoutes.create_department
  | Job => JobRoutes.create_job
  | Employee => EmployeeRoutes.create_employee
  end.

Definition get_route (c : Entity) : Z → M (option Obj) :=
  match c with
  | Department => DepartmentRoutes.get_department
  | Job => JobRoutes.get_job
  | Employee => EmployeeRoutes.get_employee
  end.

Definition list_route (c : Entity) : option Z → option Z → M (list Obj) :=
  match c with
  | Department => DepartmentRoutes.list_departments
  | Job => JobRoutes.list_jobs
  | Employee => EmployeeRoutes.list_employees
  end.

Definition update_route (c : Entity) : Z → Obj → M (option Obj) :=
  match c with
  | Department => DepartmentRoutes.update_department
  | Job => JobRoutes.update_job
  | Employee => EmployeeRoutes.update_employee
  end.

Definition delete_route (c : Entity) : Z → M unit :=
  match c with
  | Department => DepartmentRoutes.delete_department
  | Job => JobRoutes.delete_job
  | Employee => EmployeeRoutes.delete_employee
  end.

(** ** Worked inputs *)

(** Conversions that read a string of decimal digits as an integer and
    write an integer as its decimal numeral, and refuse the rest. *)
Definition digit_value (a : Ascii.ascii) : option Z :=
  let n := Z.of_N (Ascii.N_of_ascii a) in
  if decide (48 ≤ n ≤ 57)%Z then Some (n - 48)%Z else None.

Definition decimal (x : string) : option Z :=
  match String.list_ascii_of_string x with
  | [] => None
  | digits =>
      foldl (λ acc a, n ← acc; d ← digit_value a; Some (10 * n + d)%Z)
            (Some 0%Z) digits
  end.

Definition example_conversions : Conversions :=
  MkConversions
    (λ v, match v with VStr x => decimal x | _ => None end)
    (λ v, match v with VInt z => Some (pretty z) | _ => None end)
    (λ _, None).

(** A store with department 1 and job 1, and a fresh session on it. *)
Definition example_store : Store :=
  MkStore [MkDepartment 1 "Engineering"] [MkJob 1 "A"] [] example_conversions.

Definition example_session : Session := MkSession example_store (λ _, []) [].

Definition example_hire : datetime := Datetime 2021 2 1 0 0 0.

(** Three department rows, the second with the id of a stored department. *)
Definition example_departments : list (gmap string Value) :=
  [list_to_map [("id", VInt 2); ("department", VStr "Sales")];
   list_to_map [("id", VInt 1); ("department", VStr "Duplicate")];
   list_to_map [("id", VInt 3); ("department", VStr "Support")]].

(** Two employee rows that refer to the stored department and job. *)
Definition example_employees : list (gmap string Value) :=
  [list_to_map [("id", VInt 1); ("name", VStr "Ann");
                ("datetime", VDatetime example_hire);
                ("department_id", VInt 1); ("job_id", VInt 1)];
   list_to_map [("id", VInt 2); ("name", VStr "Bob");
                ("datetime", VStr "2021-05-01T00:00:00Z");
                ("department_id", VInt 1); ("job_id", VInt 1)]].

Definition example_file : UploadFile := MkUpload (inr "csv").

Definition example_unreadable : UploadFile :=
  MkUpload (inl (OtherError "stream closed")).

(** A reader that yields the rows above according to the column names. *)
Definition example_read_csv (contents : string) (names : list string)
    : Exn + list (gmap string Value) :=
  if decide (names = ["id"; "department"]) then inr example_departments
  else if decide (names = ["id"; "name"; "datetime"; "department_id"; "job_id"])
  then inr example_employees
  else inl (OtherError "Error tokenizing data").

Definition example_employee (department_id : Z) : Obj :=
  construct Employee
    [("id", VInt 1); ("name", VStr "Ann"); ("hire_datetime", VDatetime example_hire);
     ("department_id", VInt department_id); ("job_id", VInt 1)].

Definition example_job_update : Obj := construct Job [("job", VStr "B")].

Definition example_stored_job : Obj := loaded (RJob (MkJob 1 "A")).

Definition example_updated : (Exn + option Obj) * Session :=
  JobService.update 1 example_job_update example_session.

Definition example_updated_job : Obj :=
  match example_updated.1 with
  | inr (Some o) => o
  | _ => example_job_update
  end.

Definition example_duplicate_department : Obj :=
  construct Department [("id", VInt 1); ("department", VStr "Duplicate")].

(** Hires on 2021-02-01, 2021-05-01 and 2021-02-15, all in department 1
    and job 1. *)
Definition example_hires : Session :=
  MkSession
    (MkStore [MkDepartment 1 "Engineering"] [MkJob 1 "A"]
       [MkEmployee 1 "Ann" (Datetime 2021 2 1 0 0 0) 1 1;
        MkEmployee 2 "Bob" (Datetime 2021 5 1 0 0 0) 1 1;
        MkEmployee 3 "Cid" (Datetime 2021 2 15 0 0 0) 1 1]
       example_conversions)
    (λ _, []) [].

(** A department that is not stored yet, and the request that posts it. *)
Definition example_new_department : Obj :=
  construct Department [("id", VInt 2); ("department", VStr "Sales")].

Definition example_post : (Exn + Obj) * Session :=
  get_session example_store (λ _, []) (create_route Department example_new_department).

Definition example_posted : Obj :=
  match example_post.1 with
  | inr o => o
  | inl _ => example_new_department
  end.

(** A payload that sets no field, and one that sets only the id. *)
Definition example_empty_update : Obj := construct Job [].

Definition example_id_update : Obj := construct Job [("id", VInt 2)].

(** A session on a store with two jobs. *)
Definition example_two_jobs : Session :=
  MkSession (MkStore [] [MkJob 1 "A"; MkJob 2 "B"] [] example_conversions)
            (λ _, []) [].

(** The first two employees of [example_hires], as listed. *)
Definition example_page : list Obj :=
  match (get_all_of Employee 0 2 example_hires).1 with
  | inr page => page
  | inl _ => []
  end.

Definition example_listed : Obj := default example_new_department (head example_page).

(** The outcomes of the three department rows on the example session. *)
Definition example_outcomes : list (Exn + Obj) * Session :=
  row_outcomes (attempt_of Department) example_departments example_session.

(** A department posted with the title 5, an integer, and an employee
    posted with its department id as the string 1. *)
Definition example_numeric_title : Obj :=
  construct Department [("id", VInt 4); ("department", VInt 5)].

Definition example_string_key : Obj :=
  construct Employee
    [("id", VInt 1); ("name", VStr "Ann"); ("hire_datetime", VDatetime example_hire);
     ("department_id", VStr "1"); ("job_id", VInt 1)].

(** * Properties *)


(** ** Unfolding computations *)

Global Arguments flush_op : simpl never.
Global Arguments lookup_row : simpl never.
Global Arguments session_refresh : simpl never.

Ltac munfold :=
  unfold mbind, M_bind, mret, M_ret, bind, ret, raise, try_except in *.

(** ** Lookups by id *)

Lemma lookup_row_cls c i st r : lookup_row c i st = Some r → row_cls r = c.
Proof.
  destruct c; unfold lookup_row; intros H; apply fmap_Some in H as (x & _ & ->); done.
Qed.

Lemma lookup_row_id c i st r : lookup_row c i st = Some r → row_id r = i.
Proof.
  destruct c; unfold lookup_row; intros H; apply fmap_Some in H as (x & Hx & ->);
    apply find_some in Hx as [_ Hx]; by apply bool_decide_eq_true in Hx.
Qed.

Lemma get_by_id_eq c i s :
  get_by_id_of c i s =
    match lookup_row c i (db s) with
    | Some r => (inr (Some (loaded r)), s)
    | None => (inl (not_found c i), s)
    end.
Proof.
  destruct c; unfold get_by_id_of, DepartmentService.get_by_id,
    JobService.get_by_id, EmployeeService.get_by_id, session_get; munfold;
    by destruct (lookup_row _ i (db s)).
Qed.

(** ** Tables: finding a row after a write *)

Section find_by_id.
Context {A : Type} (idf : A → Z).

Lemma find_id_None (l : list A) i :
  i ∉ idf <$> l → List.find (λ x, bool_decide (idf x = i)) l = None.
Proof.
  induction l as [|x l IH]; [done|]. rewrite fmap_cons, not_elem_of_cons.
  intros [Hx Hl]. simpl. rewrite bool_decide_eq_false_2 by done. auto.
Qed.

Lemma find_id_Some_elem (l : list A) i x :
  List.find (λ x, bool_decide (idf x = i)) l = Some x → i ∈ idf <$> l.
Proof.
  intros H. apply find_some in H as [Hin Hx].
  apply bool_decide_eq_true in Hx as <-.
  apply list_elem_of_fmap. exists x. split; [done|]. by apply list_elem_of_In.
Qed.

Lemma find_id_app_new (l : list A) r :
  idf r ∉ idf <$> l →
  List.find (λ x, bool_decide (idf x = idf r)) (l ++ [r]) = Some r.
Proof.
  induction l as [|x l IH]; simpl.
  - intros _. by rewrite bool_decide_eq_true_2.
  - rewrite not_elem_of_cons. intros [Hx Hl].
    rewrite bool_decide_eq_false_2 by done. auto.
Qed.

Lemma find_id_rewritten (l : list A) key r :
  idf r = key ∨ idf r ∉ idf <$> l →
  List.find (λ x, bool_decide (idf x = idf r))
            (List.filter (λ x, negb (bool_decide (idf x = key))) l ++ [r]) = Some r.
Proof.
  induction l as [|x l IH]; intros Hr; cbn [List.filter app List.find].
  - by rewrite bool_decide_eq_true_2.
  - assert (idf r = key ∨ idf r ∉ idf <$> l) as Hr'.
    { destruct Hr as [?|Hr]; [by left|right].
      rewrite fmap_cons, not_elem_of_cons in Hr. tauto. }
    destruct (decide (idf x = key)) as [Hx|Hx].
    + rewrite (bool_decide_eq_true_2 _ Hx). cbn [negb]. auto.
    + rewrite (bool_decide_eq_false_2 _ Hx). cbn [negb app List.find].
      rewrite bool_decide_eq_false_2; [auto|].
      destruct Hr as [Hr|Hr]; [congruence|].
      rewrite fmap_cons, not_elem_of_cons in Hr. intros E. destruct Hr as [Hr _].
      congruence.
Qed.

Lemma find_id_filter_out (l : list A) key :
  List.find (λ x, bool_decide (idf x = key))
            (List.filter (λ x, negb (bool_decide (idf x = key))) l) = None.
Proof.
  induction l as [|x l IH]; [done|]. simpl.
  destruct (decide (idf x = key)) as [Hx|Hx].
  - by rewrite (bool_decide_eq_true_2 _ Hx).
  - rewrite (bool_decide_eq_false_2 _ Hx). simpl.
    by rewrite (bool_decide_eq_false_2 _ Hx).
Qed.
End find_by_id.

Lemma lookup_row_None c i st : i ∉ table_ids c st → lookup_row c i st = None.
Proof.
  destruct c; unfold lookup_row; simpl; intros H; by rewrite find_id_None.
Qed.

Lemma lookup_insert_row st r :
  row_id r ∉ table_ids (row_cls r) st →
  lookup_row (row_cls r) (row_id r) (insert_row st r) = Some r.
Proof.
  destruct r as [d|j|e]; unfold lookup_row; simpl; intros H.
  - by rewrite (find_id_app_new dep_id).
  - by rewrite (find_id_app_new job_id).
  - by rewrite (find_id_app_new emp_id).
Qed.

Lemma lookup_replace_row st key r :
  row_id r = key ∨ row_id r ∉ table_ids (row_cls r) st →
  lookup_row (row_cls r) (row_id r) (replace_row st key r) = Some r.
Proof.
  destruct r as [d|j|e]; unfold lookup_row; simpl; intros H.
  - by rewrite (find_id_rewritten dep_id).
  - by rewrite (find_id_rewritten job_id).
  - by rewrite (find_id_rewritten emp_id).
Qed.

Lemma lookup_remove_row st c key : lookup_row c key (remove_row st c key) = None.
Proof.
  destruct c; unfold lookup_row; simpl.
  - by rewrite (find_id_filter_out dep_id).
  - by rewrite (find_id_filter_out job_id).
  - by rewrite (find_id_filter_out emp_id).
Qed.

Lemma sql_insert_lookup st r st' :
  sql_insert st r = inr st' → lookup_row (row_cls r) (row_id r) st' = Some r.
Proof.
  unfold sql_insert. case_bool_decide as Hdup; [done|].
  destruct (forallb _ _); [|done]. intros [= <-]. by apply lookup_insert_row.
Qed.

Lemma sql_update_lookup st key r st' :
  sql_update st key r = inr st' → lookup_row (row_cls r) (row_id r) st' = Some r.
Proof.
  unfold sql_update. destruct (lookup_row _ key st) as [old|] eqn:Hold; [|done].
  destruct (bool_decide (row_id r ≠ key) && bool_decide (row_id r ∈ _)) eqn:Hdup; [done|].
  destruct (bool_decide (row_id r ≠ key) && referenced _ _ _); [done|].
  destruct (forallb _ _); [|done]. intros [= <-].
  apply lookup_replace_row.
  apply andb_false_iff in Hdup as [H|H].
  - left. apply bool_decide_eq_false in H. by destruct (decide (row_id r = key)).
  - right. by apply bool_decide_eq_false in H.
Qed.

Lemma sql_delete_lookup st c key st' :
  sql_delete st c key = inr st' → lookup_row c key st' = None.
Proof.
  unfold sql_delete. destruct (lookup_row c key st); [|done].
  destruct (referenced c key st); [done|]. intros [= <-]. apply lookup_remove_row.
Qed.

Lemma bind_row_cls_id st o i r :
  bind_row st o i = inr r → row_cls r = cls o ∧ row_id r = i.
Proof.
  unfold bind_row. destruct (cls o); repeat case_match; intros; by simplify_eq.
Qed.

Lemma update_row_cls st o old r : update_row st o old = inr r → row_cls r = row_cls old.
Proof.
  unfold update_row. destruct old; repeat case_match; intros; by simplify_eq.
Qed.

(** ** Flushing a single instance *)

Lemma flush_op_add_ok st gen o st' o' gen' :
  flush_op st gen (OpAdd o) = (inr (st', o'), gen') →
  ∃ r, o' = persistent o r ∧ row_cls r = cls o ∧
       lookup_row (cls o) (row_id r) st' = Some r.
Proof.
  unfold flush_op. destruct (identity o) as [key|].
  - destruct (lookup_row (cls o) key st) as [old|] eqn:Hold; [|done].
    pose proof (lookup_row_cls _ _ _ _ Hold) as Hoc.
    destruct (existsb _ _).
    + destruct (update_row st o old) as [d|r] eqn:Hb; [done|].
      destruct (sql_update st key r) as [d|st1] eqn:Hu; [done|].
      intros [= <- <- <-]. apply update_row_cls in Hb. rewrite Hoc in Hb.
      exists r. rewrite <- Hb. eauto using sql_update_lookup.
    + intros [= <- <- <-]. exists old. split; [done|]. split; [done|].
      by rewrite (lookup_row_id _ _ _ _ Hold).
  - destruct (insert_key st o gen) as [[i|] gen1]; [|done].
    destruct (bind_row st o i) as [d|r] eqn:Hb; [done|].
    destruct (sql_insert st r) as [d|st1] eqn:Hu; [done|].
    intros [= <- <- <-]. apply bind_row_cls_id in Hb as [Hc Hi].
    exists r. rewrite <- Hc. eauto using sql_insert_lookup.
Qed.

Lemma flush_single st gen op :
  flush [op] st gen =
    match flush_op st gen op with
    | (inl d, gen') => (inl d, gen')
    | (inr (st', o), gen') => (inr (st', [o]), gen')
    end.
Proof. simpl. by destruct (flush_op st gen op) as [[d|[st' o]] gen']. Qed.

Lemma refresh_persistent o r st gen ops :
  row_cls r = cls o → lookup_row (cls o) (row_id r) st = Some r →
  session_refresh (persistent o r) (MkSession st gen ops)
  = (inr (persistent o r), MkSession st gen ops).
Proof. intros Hc Hl. unfold session_refresh. cbn [identity cls persistent db]. by rewrite Hl. Qed.

Lemma write_back_eq o s :
  pending s = [] →
  write_back o s =
    match flush_op (db s) (id_source s) (OpAdd o) with
    | (inl d, gen) => (inl (SQLAlchemyError d), MkSession (db s) gen [OpAdd o])
    | (inr (st', o'), gen) => (inr o', MkSession st' gen [])
    end.
Proof.
  intros Hp. unfold write_back, session_add, session_commit. munfold. simpl.
  rewrite Hp. simpl.
  destruct (flush_op (db s) (id_source s) (OpAdd o)) as [[d|[st' o']] gen] eqn:Hf;
    [done|].
  apply flush_op_add_ok in Hf as (r & -> & Hc & Hl).
  unfold flushed. simpl. by rewrite refresh_persistent.
Qed.

Lemma write_back_pending o s o' s' :
  write_back o s = (inr o', s') → pending s' = [].
Proof.
  unfold write_back, session_add, session_commit. munfold. simpl.
  destruct (flush _ _ _) as [[d|[st' os]] gen]; [done|].
  unfold session_refresh. repeat case_match; intros; by simplify_eq.
Qed.

Lemma create_shapes o s :
  DepartmentService.create o s = create_shape "Error creating department: " o s ∧
  JobService.create o s = create_shape "Error creating job: " o s ∧
  EmployeeService.create o s = create_shape "Error creating employee: " o s.
Proof.
  unfold DepartmentService.create, JobService.create, EmployeeService.create,
    create_shape, write_back. munfold.
  destruct (session_add o s) as [[e|[]] s1]; [done|].
  destruct (session_commit s1) as [[e|os] s2]; [done|].
  by destruct (session_refresh (flushed o os) s2) as [[e|o'] s3].
Qed.

Lemma create_shape_clean prefix o s :
  pending s = [] →
  create_shape prefix o s =
    match flush_op (db s) (id_source s) (OpAdd o) with
    | (inl d, gen) =>
        (inl (DatabaseOperationError (prefix +:+ d)), MkSession (db s) gen [])
    | (inr (st', o'), gen) => (inr o', MkSession st' gen [])
    end.
Proof.
  intros Hp. unfold create_shape. unfold try_except at 1.
  unfold mbind at 1, M_bind, bind. rewrite (write_back_eq _ _ Hp).
  by destruct (flush_op _ _ _) as [[d|[st' o']] gen].
Qed.

Lemma create_shape_pending prefix o s r s' :
  create_shape prefix o s = (r, s') → pending s' = [].
Proof.
  unfold create_shape. unfold try_except at 1. unfold mbind at 1, M_bind, bind.
  destruct (write_back o s) as [[e|o'] s1] eqn:Hw.
  - unfold session_rollback; munfold. by intros [= <- <-].
  - apply write_back_pending in Hw. munfold. by intros [= <- <-].
Qed.

Lemma create_shape_fail prefix o s d gen :
  flush (pending s ++ [OpAdd o]) (db s) (id_source s) = (inl d, gen) →
  create_shape prefix o s =
    (inl (DatabaseOperationError (prefix +:+ d)), MkSession (db s) gen []).
Proof.
  intros Hf. unfold create_shape, write_back, session_add, session_commit,
    session_rollback. munfold. cbn [db id_source pending]. by rewrite Hf.
Qed.

Lemma create_of_shape c o s : create_of c o s = create_shape (create_prefix c) o s.
Proof. destruct (create_shapes o s) as (H1 & H2 & H3). by destruct c. Qed.

(** C6. When the write of [create] is refused by the store (the commit of
    the added instance raises [e]), every service raises
    [DatabaseOperationError] whose message ends with the detail [str e],
    the session is rolled back and the three tables are as before the
    call. *)
Theorem create_failure_wraps_and_rolls_back (c : Entity) (o : Obj) (s : Session)
    (e : Exn) (s1 : Session) :
  (session_add o;; session_commit) s = (inl e, s1) →
  ∃ s', create_of c o s
        = (inl (DatabaseOperationError (create_prefix c +:+ str e)), s') ∧
        pending s' = [] ∧ db s' = db s.
Proof.
  unfold session_add, session_commit. munfold. cbn [db id_source pending].
  destruct (flush _ _ _) as [[d|[st os]] gen] eqn:Hf; [|done].
  intros [= <- <-]. eexists. rewrite create_of_shape.
  rewrite (create_shape_fail _ _ _ _ _ Hf). done.
Qed.

(** ** Update and delete *)

Lemma setattr_items_Some o items s :
  setattr_items (Some o) items s
  = (inr (Some (foldl (λ o kv, setattr o kv.1 kv.2) o items)), s).
Proof.
  unfold setattr_items. revert o. induction items as [|kv items IH]; intros o.
  - done.
  - simpl. munfold. simpl. apply IH.
Qed.

Lemma patch_body_eq existing payload s :
  patch_body (Some existing) payload s =
    match write_back (patched existing payload) s with
    | (inl e, s1) => (inl e, s1)
    | (inr o, s1) => (inr (Some o), s1)
    end.
Proof.
  unfold patch_body. unfold mbind at 1, M_bind, bind.
  rewrite setattr_items_Some. fold (patched existing payload).
  unfold write_back, as_instance. munfold.
  destruct (session_add _ s) as [[e|[]] s1]; [done|].
  destruct (session_commit s1) as [[e|os] s2]; [done|].
  by destruct (session_refresh _ s2) as [[e|o'] s3].
Qed.

Lemma patch_body_not_None existing payload s s' :
  patch_body existing payload s ≠ (inr None, s').
Proof.
  unfold patch_body. munfold.
  destruct (setattr_items _ _ s) as [[e|ex] s1]; [done|].
  destruct (as_instance ex s1) as [[e|o] s2]; [done|].
  destruct (session_add o s2) as [[e|[]] s3]; [done|].
  destruct (session_commit s3) as [[e|os] s4]; [done|].
  by destruct (session_refresh _ s4) as [[e|o'] s5].
Qed.

Lemma update_outside_eq c i payload s :
  c ≠ Department →
  update_of c i payload s =
    match get_by_id_of c i s with
    | (inl e, s1) => (inl e, s1)
    | (inr existing, s1) =>
        if negb (truthy existing) then (inr None, s1)
        else match patch_body existing payload s1 with
             | (inl e, s2) =>
                 (inl (DatabaseOperationError (update_prefix c +:+ str e)),
                  MkSession (db s2) (id_source s2) [])
             | (inr o, s2) => (inr o, s2)
             end
    end.
Proof.
  intros Hc. destruct c; [done| |];
    unfold update_of, get_by_id_of, JobService.update, EmployeeService.update,
      patch_body, session_rollback; munfold.
  - destruct (JobService.get_by_id i s) as [[e|existing] s1]; [done|].
    destruct (negb (truthy existing)); [done|].
    destruct (setattr_items existing _ s1) as [[e|ex] s2]; [done|].
    destruct (as_instance ex s2) as [[e|o] s3]; [done|].
    destruct (session_add o s3) as [[e|[]] s4]; [done|].
    destruct (session_commit s4) as [[e|os] s5]; [done|].
    by destruct (session_refresh _ s5) as [[e|o'] s6].
  - destruct (EmployeeService.get_by_id i s) as [[e|existing] s1]; [done|].
    destruct (negb (truthy existing)); [done|].
    destruct (setattr_items existing _ s1) as [[e|ex] s2]; [done|].
    destruct (as_instance ex s2) as [[e|o] s3]; [done|].
    destruct (session_add o s3) as [[e|[]] s4]; [done|].
    destruct (session_commit s4) as [[e|os] s5]; [done|].
    by destruct (session_refresh _ s5) as [[e|o'] s6].
Qed.

Lemma update_department_eq i payload s :
  DepartmentService.update i payload s =
    match DepartmentService.get_by_id i s with
    | (inl e, s1) =>
        (inl (DatabaseOperationError ("Error updating department: " +:+ str e)),
         MkSession (db s1) (id_source s1) [])
    | (inr existing, s1) =>
        match patch_body existing payload s1 with
        | (inl e, s2) =>
            (inl (DatabaseOperationError ("Error updating department: " +:+ str e)),
             MkSession (db s2) (id_source s2) [])
        | (inr o, s2) => (inr o, s2)
        end
    end.
Proof.
  unfold DepartmentService.update, patch_body, session_rollback; munfold.
  destruct (DepartmentService.get_by_id i s) as [[e|existing] s1]; [done|].
  destruct (setattr_items existing _ s1) as [[e|ex] s2]; [done|].
  destruct (as_instance ex s2) as [[e|o] s3]; [done|].
  destruct (session_add o s3) as [[e|[]] s4]; [done|].
  destruct (session_commit s4) as [[e|os] s5]; [done|].
  by destruct (session_refresh _ s5) as [[e|o'] s6].
Qed.

(** C10. [update] of the employee and job services never returns [None]:
    the lookup either raises or yields an instance, so the
    [if not existing: return None] branch is dead, and the call either
    raises or returns the updated instance. *)
Theorem update_never_returns_None (i : Z) (payload : Obj) (s : Session) :
  (EmployeeService.get_by_id i s).1 ≠ inr None ∧
  (JobService.get_by_id i s).1 ≠ inr None ∧
  (EmployeeService.update i payload s).1 ≠ inr None ∧
  (JobService.update i payload s).1 ≠ inr None.
Proof.
  assert (∀ c, c ≠ Department →
    (get_by_id_of c i s).1 ≠ inr None ∧ (update_of c i payload s).1 ≠ inr None)
    as H.
  { intros c Hc. rewrite update_outside_eq by done. rewrite get_by_id_eq.
    destruct (lookup_row c i (db s)) as [r|]; [|done]. split; [done|].
    cbn [truthy negb].
    destruct (patch_body (Some (loaded r)) payload s) as [[e|o] s2] eqn:Hb; [done|].
    simpl. intros [= ->]. by apply patch_body_not_None in Hb. }
  destruct (H Employee) as [H1 H2]; [done|].
  destruct (H Job) as [H3 H4]; [done|]. done.
Qed.

Lemma delete_inside_eq c i s :
  c ≠ Department →
  delete_of c i s =
    match get_by_id_of c i s with
    | (inl e, s1) =>
        (inl (DatabaseOperationError (delete_prefix c +:+ str e)),
         MkSession (db s1) (id_source s1) [])
    | (inr v, s1) =>
        match (o ← as_instance v; session_delete o;; session_commit) s1 with
        | (inl e, s2) =>
            (inl (DatabaseOperationError (delete_prefix c +:+ str e)),
             MkSession (db s2) (id_source s2) [])
        | (inr _, s2) => (inr (), s2)
        end
    end.
Proof.
  intros Hc. destruct c; [done| |];
    unfold delete_of, get_by_id_of, JobService.delete, EmployeeService.delete,
      session_rollback; munfold.
  - destruct (JobService.get_by_id i s) as [[e|v] s1]; [done|].
    destruct (as_instance v s1) as [[e|o] s2]; [done|].
    destruct (session_delete o s2) as [[e|[]] s3]; [done|].
    by destruct (session_commit s3) as [[e|os] s4].
  - destruct (EmployeeService.get_by_id i s) as [[e|v] s1]; [done|].
    destruct (as_instance v s1) as [[e|o] s2]; [done|].
    destruct (session_delete o s2) as [[e|[]] s3]; [done|].
    by destruct (session_commit s3) as [[e|os] s4].
Qed.

Lemma delete_department_eq i s :
  DepartmentService.delete i s =
    match DepartmentService.get_by_id i s with
    | (inl e, s1) => (inl e, s1)
    | (inr v, s1) =>
        if negb (truthy v) then (inl (not_found Department i), s1)
        else
          match (o ← as_instance v; session_delete o;; session_commit) s1 with
          | (inl e, s2) =>
              (inl (DatabaseOperationError ("Error deleting department: " +:+ str e)),
               MkSession (db s2) (id_source s2) [])
          | (inr _, s2) => (inr (), s2)
          end
    end.
Proof.
  unfold DepartmentService.delete, session_rollback; munfold.
  destruct (DepartmentService.get_by_id i s) as [[e|v] s1]; [done|].
  destruct (negb (truthy v)); [done|].
  destruct (as_instance v s1) as [[e|o] s2]; [done|].
  destruct (session_delete o s2) as [[e|[]] s3]; [done|].
  by destruct (session_commit s3) as [[e|os] s4].
Qed.

Lemma missing_row_outcomes c i payload s :
  lookup_row c i (db s) = None →
  get_by_id_of c i s = (inl (not_found c i), s) ∧
  update_of c i payload s =
    (if decide (c = Department)
     then (inl (DatabaseOperationError (update_prefix c +:+ str (not_found c i))),
           MkSession (db s) (id_source s) [])
     else (inl (not_found c i), s)) ∧
  delete_of c i s =
    (if decide (c = Department)
     then (inl (not_found c i), s)
     else (inl (DatabaseOperationError (delete_prefix c +:+ str (not_found c i))),
           MkSession (db s) (id_source s) [])).
Proof.
  intros Hi.
  assert (get_by_id_of c i s = (inl (not_found c i), s)) as Hg.
  { rewrite get_by_id_eq. by rewrite Hi. }
  split; [done|]. destruct (decide (c = Department)) as [->|Hc].
  - split.
    + unfold update_of. rewrite update_department_eq.
      change DepartmentService.get_by_id with (get_by_id_of Department).
      by rewrite Hg.
    + unfold delete_of. rewrite delete_department_eq.
      change DepartmentService.get_by_id with (get_by_id_of Department).
      by rewrite Hg.
  - rewrite update_outside_eq, delete_inside_eq by done. by rewrite Hg.
Qed.

(** C7 on the code. For an id with no row, [get_by_id] of every service
    raises [ResourceNotFoundError]; so do [update] of the job and employee
    services and [delete] of the department service. [update] of the
    department service and [delete] of the job and employee services look
    the row up inside their [try] block: the not-found error is caught
    there and comes out as [DatabaseOperationError]. *)
Theorem missing_id_errors (c : Entity) (i : Z) (payload : Obj) (s : Session) :
  i ∉ table_ids c (db s) →
  get_by_id_of c i s = (inl (not_found c i), s) ∧
  update_of c i payload s =
    (if decide (c = Department)
     then (inl (DatabaseOperationError (update_prefix c +:+ str (not_found c i))),
           MkSession (db s) (id_source s) [])
     else (inl (not_found c i), s)) ∧
  delete_of c i s =
    (if decide (c = Department)
     then (inl (not_found c i), s)
     else (inl (DatabaseOperationError (delete_prefix c +:+ str (not_found c i))),
           MkSession (db s) (id_source s) [])).
Proof. intros Hi. apply missing_row_outcomes. by apply lookup_row_None. Qed.

Lemma session_commit_clean s :
  pending s = [] → session_commit s = (inr [], MkSession (db s) (id_source s) []).
Proof. intros Hp. unfold session_commit. by rewrite Hp. Qed.

Lemma delete_core_eq c i r s :
  pending s = [] → lookup_row c i (db s) = Some r →
  (o ← as_instance (Some (loaded r)); session_delete o;; session_commit) s =
    match sql_delete (db s) c i with
    | inl d => (inl (SQLAlchemyError d),
                MkSession (db s) (id_source s) [OpDelete (loaded r)])
    | inr st' => (inr [loaded r], MkSession st' (id_source s) [])
    end.
Proof.
  intros Hp Hr. unfold as_instance, session_delete, session_commit. munfold.
  cbn [db id_source pending]. rewrite Hp. cbn [app]. rewrite flush_single.
  unfold flush_op. cbn [identity loaded cls].
  rewrite (lookup_row_id _ _ _ _ Hr), (lookup_row_cls _ _ _ _ Hr).
  by destruct (sql_delete (db s) c i) as [d|st'].
Qed.

Lemma delete_then_get_by_id c i s s' :
  pending s = [] →
  delete_of c i s = (inr (), s') → get_by_id_of c i s' = (inl (not_found c i), s').
Proof.
  intros Hp Hd. rewrite get_by_id_eq.
  enough (lookup_row c i (db s') = None) as -> by done.
  destruct (decide (c = Department)) as [->|Hc].
  - unfold delete_of in Hd. rewrite delete_department_eq in Hd.
    change DepartmentService.get_by_id with (get_by_id_of Department) in Hd.
    rewrite get_by_id_eq in Hd.
    destruct (lookup_row Department i (db s)) as [r|] eqn:Hr; [|done].
    cbn [truthy negb] in Hd. rewrite (delete_core_eq _ _ _ _ Hp Hr) in Hd.
    destruct (sql_delete (db s) Department i) as [d|st'] eqn:Hs; [done|].
    injection Hd as <-. by apply sql_delete_lookup in Hs.
  - rewrite delete_inside_eq in Hd by done. rewrite get_by_id_eq in Hd.
    destruct (lookup_row c i (db s)) as [r|] eqn:Hr; [|done].
    rewrite (delete_core_eq _ _ _ _ Hp Hr) in Hd.
    destruct (sql_delete (db s) c i) as [d|st'] eqn:Hs; [done|].
    injection Hd as <-. by apply sql_delete_lookup in Hs.
Qed.

(** ** The CSV uploads *)

Lemma getitem_state row k s : (getitem row k s).2 = s.
Proof. unfold getitem. by destruct (row !! k). Qed.

Lemma attempt_of_state c row s :
  pending (attempt_of c row s).2 = [] ∨ (attempt_of c row s).2 = s.
Proof.
  destruct c; unfold attempt_of, attempt_department, attempt_job, attempt_employee;
    munfold;
    repeat match goal with
    | |- context [getitem row ?k ?s0] =>
        let H := fresh in
        pose proof (getitem_state row k s0) as H;
        destruct (getitem row k s0) as [[?|?] ?]; simpl in H; subst; [by right|]
    end; left.
  - change DepartmentService.create with (create_of Department).
    rewrite create_of_shape.
    destruct (create_shape _ _ _) eqn:Hc. by apply create_shape_pending in Hc.
  - change JobService.create with (create_of Job).
    rewrite create_of_shape.
    destruct (create_shape _ _ _) eqn:Hc. by apply create_shape_pending in Hc.
  - change EmployeeService.create with (create_of Employee).
    rewrite create_of_shape.
    destruct (create_shape _ _ _) eqn:Hc. by apply create_shape_pending in Hc.
Qed.

Lemma import_row_eq attempt row counts s :
  import_row attempt row counts s =
    match attempt row s with
    | (inl _, s') => (inr (counts.1, S counts.2), s')
    | (inr _, s') => (inr (S counts.1, counts.2), s')
    end.
Proof. unfold import_row. munfold. by destruct (attempt row s) as [[e|o] s']. Qed.

Lemma for_each_import c rows counts s :
  ∃ counts' s',
    for_each rows counts (import_row (attempt_of c)) s = (inr counts', s') ∧
    counts'.1 + counts'.2 = counts.1 + counts.2 + length rows ∧
    (pending s' = [] ∨ s' = s).
Proof.
  revert counts s. induction rows as [|row rows IH]; intros counts s.
  - exists counts, s. simpl. split; [done|]. split; [lia|by right].
  - cbn [for_each]. unfold mbind, M_bind, bind. rewrite import_row_eq.
    pose proof (attempt_of_state c row s) as Hst.
    destruct (attempt_of c row s) as [[e|o] s1]; simpl in Hst.
    + destruct (IH (counts.1, S counts.2) s1) as (c' & s' & -> & Hc & Hs).
      exists c', s'. split; [done|]. simpl in *. split; [lia|].
      destruct Hs as [Hs| ->]; [by left|]. done.
    + destruct (IH (S counts.1, counts.2) s1) as (c' & s' & -> & Hc & Hs).
      exists c', s'. split; [done|]. simpl in *. split; [lia|].
      destruct Hs as [Hs| ->]; [by left|]. done.
Qed.

Lemma for_each_import_clean c rows counts s :
  pending s = [] →
  ∃ counts' s',
    for_each rows counts (import_row (attempt_of c)) s = (inr counts', s') ∧
    counts'.1 + counts'.2 = counts.1 + counts.2 + length rows ∧
    pending s' = [].
Proof.
  intros Hp. destruct (for_each_import c rows counts s) as (c' & s' & H & Hc & Hs).
  exists c', s'. split; [done|]. split; [done|]. by destruct Hs as [Hs| ->].
Qed.

Section upload_facts.
Variable read_csv : string → list string → Exn + list (gmap string Value).

Lemma upload_csv_eq names attempt file s :
  upload_csv read_csv names attempt file s =
    match upload_read file with
    | inl e => server_error e s
    | inr contents =>
        match read_csv contents names with
        | inl e => server_error e s
        | inr df =>
            match for_each df (0, 0) (import_row attempt) s with
            | (inl e, s1) => server_error e s1
            | (inr counts, s1) =>
                match session_commit s1 with
                | (inl e, s2) => server_error e s2
                | (inr _, s2) => (inr (upload_report counts.1 counts.2), s2)
                end
            end
        end
    end.
Proof.
  unfold upload_csv, file_read, pd_read_csv, server_error, session_rollback.
  munfold. destruct (upload_read file) as [e|contents]; [done|].
  destruct (read_csv contents names) as [e|df]; [done|].
  destruct (for_each df _ _ s) as [[e|counts] s1]; [done|].
  by destruct (session_commit s1) as [[e|os] s2].
Qed.

Lemma upload_of_eq c file s :
  upload_of read_csv c file s = upload_csv read_csv (names_of c) (attempt_of c) file s.
Proof. by destruct c. Qed.

Lemma upload_of_parsed c file contents df s :
  upload_read file = inr contents →
  read_csv contents (names_of c) = inr df →
  pending s = [] →
  ∃ n m s', for_each df (0, 0) (import_row (attempt_of c)) s = (inr (n, m), s') ∧
            pending s' = [] ∧ n + m = length df ∧
            upload_of read_csv c file s
            = (inr (upload_report n m), MkSession (db s') (id_source s') []).
Proof.
  intros Hr Hc Hp. rewrite upload_of_eq, upload_csv_eq, Hr, Hc.
  destruct (for_each_import_clean c df (0, 0) s Hp) as ([n m] & s' & Hf & Hn & Hs).
  exists n, m, s'. rewrite Hf, (session_commit_clean _ Hs). simpl in Hn. done.
Qed.

End upload_facts.

Lemma row_outcomes_length attempt rows s :
  length (row_outcomes attempt rows s).1 = length rows.
Proof.
  revert s. induction rows as [|row rows IH]; intros s; [done|].
  cbn [row_outcomes]. destruct (attempt row s) as [outcome s1].
  specialize (IH s1). destruct (row_outcomes attempt rows s1) as [outcomes s'].
  cbn [fst length] in *. by rewrite IH.
Qed.

Lemma row_outcomes_lookup attempt rows s (k : nat) row :
  rows !! k = Some row →
  (row_outcomes attempt rows s).1 !! k
  = Some (attempt row (row_outcomes attempt (take k rows) s).2).1.
Proof.
  revert s k. induction rows as [|x rows IH]; intros s k; [done|].
  destruct k as [|k]; cbn [lookup list_lookup take row_outcomes].
  - intros [= ->]. cbn [snd]. destruct (attempt row s) as [outcome s1].
    by destruct (row_outcomes attempt rows s1) as [outcomes s'].
  - intros Hk. specialize (IH (attempt x s).2 k Hk).
    destruct (attempt x s) as [outcome s1]. cbn [snd] in IH.
    destruct (row_outcomes attempt rows s1) as [outcomes s'].
    destruct (row_outcomes attempt (take k rows) s1) as [outcomes1 s1'].
    exact IH.
Qed.

(** The loop of the endpoints computes the counts of the outcomes. *)
Lemma for_each_import_outcomes attempt rows counts s :
  for_each rows counts (import_row attempt) s
  = (inr (counts.1 + successes (row_outcomes attempt rows s).1,
          counts.2 + failures (row_outcomes attempt rows s).1),
     (row_outcomes attempt rows s).2).
Proof.
  revert counts s. induction rows as [|row rows IH]; intros counts s.
  - cbn. rewrite !Nat.add_0_r. by destruct counts.
  - cbn [for_each row_outcomes]. unfold mbind, M_bind, bind. rewrite import_row_eq.
    destruct (attempt row s) as [[e|o] s1]; rewrite IH;
      destruct (row_outcomes attempt rows s1) as [outcomes s'];
      unfold successes, failures; cbn; do 3 f_equal; lia.
Qed.

Section upload_claims.
Variable read_csv : string → list string → Exn + list (gmap string Value).

(** C1. The import is resilient per row. For an upload whose stream is
    read and parsed, every row is attempted, in the session the rows
    before it left behind, whatever their outcomes: a row whose attempt
    (building the instance, calling [create]) raises does not stop the
    rows after it. The request answers with a success report whose two
    counters are the number of attempts that returned and the number of
    attempts that raised, and what the attempts wrote is committed. *)
Theorem import_is_resilient_per_row (c : Entity) (file : UploadFile)
    (contents : string) (df : list (gmap string Value)) (s : Session) :
  upload_read file = inr contents →
  read_csv contents (names_of c) = inr df →
  pending s = [] →
  ∃ outcomes s',
    row_outcomes (attempt_of c) df s = (outcomes, s') ∧
    length outcomes = length df ∧
    (∀ (k : nat) row,
       df !! k = Some row →
       outcomes !! k
       = Some (attempt_of c row (row_outcomes (attempt_of c) (take k df) s).2).1) ∧
    upload_of read_csv c file s
    = (inr (upload_report (successes outcomes) (failures outcomes)),
       MkSession (db s') (id_source s') []).
Proof.
  intros Hr Hc Hp.
  destruct (row_outcomes (attempt_of c) df s) as [outcomes s'] eqn:Ho.
  exists outcomes, s'. split; [done|].
  pose proof (row_outcomes_length (attempt_of c) df s) as Hlen.
  pose proof (for_each_import_outcomes (attempt_of c) df (0, 0) s) as Hf.
  rewrite Ho in Hlen, Hf. cbn [fst snd] in Hlen, Hf. split; [done|]. split.
  - intros k row Hk. pose proof (row_outcomes_lookup (attempt_of c) df s k row Hk) as H.
    by rewrite Ho in H.
  - destruct (for_each_import_clean c df (0, 0) s Hp) as (counts & s1 & Hf' & _ & Hp').
    rewrite Hf in Hf'. injection Hf' as <- <-.
    rewrite upload_of_eq, upload_csv_eq, Hr, Hc, Hf.
    by rewrite (session_commit_clean _ Hp').
Qed.

(** C5. A successful upload answers
    [{status: success, successful_imports: N, failed_imports: M}] with
    the two counts rendered as decimal strings; each row bumps exactly
    one of the two counters, and [N + M] is the number of parsed rows. *)
Theorem upload_report_counts (c : Entity) (file : UploadFile)
    (contents : string) (df : list (gmap string Value)) (s : Session) :
  upload_read file = inr contents →
  read_csv contents (names_of c) = inr df →
  pending s = [] →
  (∃ (n m : nat) s',
     upload_of read_csv c file s
     = (inr [("status", "success");
             ("successful_imports", pretty n);
             ("failed_imports", pretty m)], s') ∧
     n + m = length df) ∧
  (∀ row counts s1, ∃ s2,
     import_row (attempt_of c) row counts s1 = (inr (S counts.1, counts.2), s2) ∨
     import_row (attempt_of c) row counts s1 = (inr (counts.1, S counts.2), s2)).
Proof.
  intros Hr Hc Hp. split.
  - destruct (upload_of_parsed read_csv c file contents df s Hr Hc Hp)
      as (n & m & s' & _ & _ & Hn & ->). eauto.
  - intros row counts s1. rewrite import_row_eq.
    destruct (attempt_of c row s1) as [[e|o] s2]; exists s2; auto.
Qed.

(** C4. A request whose stream cannot be read, or cannot be parsed,
    fails with status 500 and the session rolled back; and whenever an
    upload fails as a whole, it is with status 500, nothing is left
    pending and the three tables are as they were before the request. *)
Theorem upload_fatal_error_rolls_back (c : Entity) (file : UploadFile)
    (s : Session) :
  (∀ e, upload_read file = inl e →
        upload_of read_csv c file s = server_error e s) ∧
  (∀ contents e,
     upload_read file = inr contents →
     read_csv contents (names_of c) = inl e →
     upload_of read_csv c file s = server_error e s) ∧
  (∀ e s', upload_of read_csv c file s = (inl e, s') →
           (∃ detail, e = HTTPException 500 detail) ∧
           pending s' = [] ∧ db s' = db s).
Proof.
  split; [|split].
  - intros e He. by rewrite upload_of_eq, upload_csv_eq, He.
  - intros contents e Hr He. by rewrite upload_of_eq, upload_csv_eq, Hr, He.
  - intros e s'. rewrite upload_of_eq, upload_csv_eq.
    destruct (upload_read file) as [e0|contents].
    { intros [= <- <-]. eauto. }
    destruct (read_csv contents (names_of c)) as [e0|df].
    { intros [= <- <-]. eauto. }
    destruct (for_each_import c df (0, 0) s) as (counts & s1 & -> & _ & Hs).
    destruct Hs as [Hs| ->].
    + by rewrite (session_commit_clean _ Hs).
    + unfold session_commit.
      destruct (flush _ _ _) as [[d|[st os]] gen]; [|done].
      intros [= <- <-]. eauto.
Qed.

End upload_claims.

(** ** Employees: the upload and the foreign keys *)

Lemma construct_employee_row id name dt department_id job_id :
  let o := construct Employee
             [("id", id); ("name", name); ("datetime", dt);
              ("department_id", department_id); ("job_id", job_id)] in
  cls o = Employee ∧ identity o = None ∧ getattr o "hire_datetime" = VNone.
Proof. vm_compute. done. Qed.

Lemma flush_employee_without_hire_datetime o st gen :
  cls o = Employee → identity o = None → getattr o "hire_datetime" = VNone →
  ∃ d gen', flush_op st gen (OpAdd o) = (inl d, gen').
Proof.
  intros Hc Hi Hh. unfold flush_op. rewrite Hi.
  destruct (insert_key st o gen) as [[i|] gen']; [|eauto].
  unfold bind_row. rewrite Hc, Hh. cbn [timestamp_input].
  destruct (text_input _ _); eauto.
Qed.

Lemma attempt_employee_fails row s :
  pending s = [] →
  ∃ e s', attempt_employee row s = (inl e, s') ∧ pending s' = [] ∧ db s' = db s.
Proof.
  intros Hp. unfold attempt_employee. munfold.
  repeat match goal with
  | |- context [getitem row ?k ?s0] =>
      let H := fresh in
      pose proof (getitem_state row k s0) as H;
      destruct (getitem row k s0) as [[?|?] ?]; simpl in H; subst; [by eauto|]
  end.
  change EmployeeService.create with (create_of Employee).
  rewrite create_of_shape, create_shape_clean by done.
  match goal with |- context [OpAdd ?o] => set (emp := o) end.
  destruct (construct_employee_row v v0 v1 v2 v3) as (Hc & Hi & Hh).
  destruct (flush_employee_without_hire_datetime emp (db s) (id_source s) Hc Hi Hh)
    as (d & gen' & ->). eauto.
Qed.

Lemma for_each_employee_rows rows counts s :
  pending s = [] →
  ∃ s', for_each rows counts (import_row attempt_employee) s
        = (inr (counts.1, counts.2 + length rows), s') ∧
        pending s' = [] ∧ db s' = db s.
Proof.
  revert counts s. induction rows as [|row rows IH]; intros counts s Hp.
  - exists s. simpl. rewrite Nat.add_0_r. by destruct counts.
  - cbn [for_each]. unfold mbind, M_bind, bind. rewrite import_row_eq.
    destruct (attempt_employee_fails row s Hp) as (e & s1 & -> & Hp1 & Hdb).
    destruct (IH (counts.1, S counts.2) s1 Hp1) as (s' & -> & Hp' & Hdb').
    exists s'. simpl. split; [|split; congruence].
    do 3 f_equal. lia.
Qed.

(** C3 on the code. The employee loop hands the third column to the
    constructor under the keyword [datetime], which names no field of
    [Employee]: [hire_datetime] stays unset, the store refuses the row,
    and so every row of every employee upload is counted as failed and
    none is inserted. *)
Theorem employee_upload_inserts_nothing
    (read_csv : string → list string → Exn + list (gmap string Value))
    (file : UploadFile) (contents : string) (df : list (gmap string Value))
    (s : Session) :
  upload_read file = inr contents →
  read_csv contents ["id"; "name"; "datetime"; "department_id"; "job_id"] = inr df →
  pending s = [] →
  ∃ s', upload_employee_csv read_csv file s
        = (inr (upload_report 0 (length df)), s') ∧
        db s' = db s.
Proof.
  intros Hr Hc Hp. unfold upload_employee_csv. rewrite upload_csv_eq, Hr, Hc.
  destruct (for_each_employee_rows df (0, 0) s Hp) as (s' & -> & Hp' & Hdb).
  rewrite (session_commit_clean _ Hp'). eauto.
Qed.

(** C9. Creating an employee whose [department_id] or [job_id] matches no
    row of the table it refers to (whatever integer the store reads the
    value as, no department, respectively no job, carries it as its id)
    raises [DatabaseOperationError], and the tables are left as they
    were: the employee is not persisted. *)
Theorem create_employee_checks_foreign_keys (o : Obj) (s : Session) :
  pending s = [] →
  cls o = Employee →
  identity o = None →
  (∀ z, integer_input (db s) (getattr o "department_id") = Some z →
        z ∉ table_ids Department (db s)) ∨
  (∀ z, integer_input (db s) (getattr o "job_id") = Some z →
        z ∉ table_ids Job (db s)) →
  ∃ message s',
    EmployeeService.create o s = (inl (DatabaseOperationError message), s') ∧
    db s' = db s ∧
    employees (db s') = employees (db s).
Proof.
  intros Hp Hc Hi Hfk.
  change EmployeeService.create with (create_of Employee).
  rewrite create_of_shape, create_shape_clean by done.
  enough (∃ d gen', flush_op (db s) (id_source s) (OpAdd o) = (inl d, gen'))
    as (d & gen' & ->) by eauto.
  unfold flush_op. rewrite Hi.
  destruct (insert_key (db s) o (id_source s)) as [[i|] gen']; [|eauto].
  unfold bind_row. rewrite Hc.
  destruct (text_input _ _) as [n|]; [|eauto].
  destruct (timestamp_input _ _) as [h|]; [|eauto].
  destruct (integer_input (db s) (getattr o "department_id")) as [dz|] eqn:Hd; [|eauto].
  destruct (integer_input (db s) (getattr o "job_id")) as [jz|] eqn:Hj; [|eauto].
  unfold sql_insert. cbn [row_id row_cls fk_targets forallb].
  case_bool_decide; [eauto|].
  unfold fk_present. cbn [fst snd emp_department_id emp_job_id].
  destruct Hfk as [Hfk|Hfk].
  - rewrite (bool_decide_eq_false_2 (dz ∈ _)) by auto. eauto.
  - rewrite (bool_decide_eq_false_2 (jz ∈ _)) by auto.
    rewrite andb_false_r. eauto.
Qed.

(** ** Update as a merge-patch *)

Lemma getattr_setattr o k v k' :
  getattr (setattr o k v) k' = if decide (k' = k) then v else getattr o k'.
Proof.
  unfold getattr, setattr. cbn [attrs]. destruct (decide (k' = k)) as [->|Hne].
  - by rewrite lookup_insert_eq.
  - by rewrite lookup_insert_ne.
Qed.

Lemma getattr_foldl_setattr (f : string → Value) items o k :
  (∀ kv, kv ∈ items → kv.2 = f kv.1) →
  getattr (foldl (λ o kv, setattr o kv.1 kv.2) o items) k
  = if decide (k ∈ items.*1) then f k else getattr o k.
Proof.
  revert o. induction items as [|kv items IH]; intros o Hf.
  - cbn [foldl]. destruct (decide (k ∈ ([] : list (string * Value)).*1)) as [H|H]; [|done].
    by apply elem_of_nil in H.
  - cbn [foldl]. rewrite IH by (intros; apply Hf; by right).
    rewrite getattr_setattr, fmap_cons.
    destruct (decide (k ∈ items.*1)) as [Hin|Hin].
    + rewrite decide_True by (by right). done.
    + destruct (decide (k = kv.1)) as [->|Hne].
      * rewrite decide_True by (by left). apply Hf. by left.
      * rewrite decide_False; [done|]. rewrite elem_of_cons. tauto.
Qed.

Lemma foldl_setattr_cls_identity items o :
  cls (foldl (λ o kv, setattr o kv.1 kv.2) o items) = cls o ∧
  identity (foldl (λ o kv, setattr o kv.1 kv.2) o items) = identity o.
Proof.
  revert o. induction items as [|kv items IH]; intros o; [done|].
  cbn [foldl]. by destruct (IH (setattr o kv.1 kv.2)) as [-> ->].
Qed.

Lemma model_dump_exclude_unset_keys payload k :
  k ∈ (model_dump_exclude_unset payload).*1
  ↔ k ∈ model_fields (cls payload) ∧ k ∈ fields_set payload.
Proof.
  unfold model_dump_exclude_unset. rewrite list_elem_of_fmap. split.
  - intros ([k' v] & -> & Hin). apply list_elem_of_omap in Hin as (k'' & Hk & Hs).
    case_decide; simplify_eq. done.
  - intros [Hk Hs]. exists (k, getattr payload k). split; [done|].
    apply list_elem_of_omap. exists k. split; [done|]. by rewrite decide_True.
Qed.

Lemma model_dump_exclude_unset_values payload kv :
  kv ∈ model_dump_exclude_unset payload → kv.2 = getattr payload kv.1.
Proof.
  unfold model_dump_exclude_unset. intros Hin.
  apply list_elem_of_omap in Hin as (k & Hk & Hs). case_decide; by simplify_eq.
Qed.

Lemma getattr_patched existing payload k :
  getattr (patched existing payload) k
  = if decide (k ∈ model_fields (cls payload) ∧ k ∈ fields_set payload)
    then getattr payload k else getattr existing k.
Proof.
  unfold patched.
  rewrite (getattr_foldl_setattr (getattr payload))
    by apply model_dump_exclude_unset_values.
  destruct (decide (k ∈ (model_dump_exclude_unset payload).*1)) as [H|H];
    rewrite model_dump_exclude_unset_keys in H.
  - by rewrite decide_True.
  - by rewrite decide_False.
Qed.

(** What a written row holds, column by column. *)

Ltac column_value_compute :=
  unfold column_value;
  repeat match goal with
  | |- context [column_type ?c ?k] =>
      let t := eval vm_compute in (column_type c k) in
      change (column_type c k) with t
  | H : context [column_type ?c ?k] |- _ =>
      let t := eval vm_compute in (column_type c k) in
      change (column_type c k) with t in H
  end.

Ltac each_field Hk tac :=
  repeat (apply elem_of_cons in Hk as [->|Hk]; [tac|]);
  try (by apply elem_of_nil in Hk).

Lemma bind_row_load st o i r k :
  bind_row st o i = inr r → k ∈ model_fields (cls o) → k ≠ "id" →
  column_value st (cls o) k (getattr o k) = Some (getattr (loaded r) k).
Proof.
  intros Hb Hk Hne. unfold bind_row in Hb.
  destruct (cls o); cbn [model_fields] in Hk;
    repeat match type of Hb with
    | match ?x with _ => _ end = _ => destruct x eqn:?; [|done]
    end;
    injection Hb as <-;
    (apply elem_of_cons in Hk as [->|Hk]; [done|]);
    each_field Hk
      ltac:(idtac; column_value_compute;
            match goal with
            | H : _ = Some _ |- context [getattr o ?k] => rewrite H
            end; reflexivity).
Qed.

Lemma load_row_id r : load_row r !! "id" = Some (VInt (row_id r)).
Proof. by destruct r. Qed.

Lemma getattr_loaded_id r : getattr (loaded r) "id" = VInt (row_id r).
Proof. unfold getattr. cbn [loaded attrs]. by rewrite load_row_id. Qed.

Lemma getattr_persistent o r k : getattr (persistent o r) k = getattr (loaded r) k.
Proof. done. Qed.

Lemma update_row_load st o old r k :
  update_row st o old = inr r → k ∈ model_fields (row_cls old) →
  if modified o old k
  then column_value st (row_cls old) k (getattr o k) = Some (getattr (loaded r) k)
  else getattr (loaded r) k = getattr (loaded old) k.
Proof.
  intros Hb Hk. unfold update_row in Hb.
  destruct old as [d|j|e]; cbn [row_cls model_fields] in Hk |- *;
    repeat match type of Hb with
    | match ?x with _ => _ end = _ => destruct x eqn:?; [|done]
    end;
    injection Hb as <-;
    unfold set_integer, set_text, set_timestamp in *;
    each_field Hk
      ltac:(idtac;
            match goal with
            | H : (if modified o ?old ?k then _ else _) = Some _
              |- context [modified o ?old ?k] =>
                destruct (modified o old k);
                [column_value_compute; rewrite H; reflexivity
                |injection H as <-; reflexivity]
            end).
Qed.

Lemma update_row_unmodified st o old :
  (∀ k, k ∈ model_fields (row_cls old) → modified o old k = true →
        (k ∉ key_fields (row_cls old)) ∧
        is_Some (column_value st (row_cls old) k (getattr o k))) →
  ∃ r, update_row st o old = inr r ∧ row_id r = row_id old ∧
       fk_targets r = fk_targets old.
Proof.
  intros H. unfold update_row, set_integer, set_text, set_timestamp.
  destruct old as [d|j|e]; cbn [row_cls model_fields key_fields] in H;
    repeat match goal with
    | |- context [modified o ?old ?k] =>
        let Hm := fresh "Hm" in
        destruct (modified o old k) eqn:Hm;
        [destruct (H k) as [Hkey [? Hx]];
         [apply (bool_decide_unpack _); by vm_compute|done|];
         first [ by (exfalso; apply Hkey; apply (bool_decide_unpack _); vm_compute)
               | column_value_compute; apply fmap_Some in Hx as (? & -> & _);
                 clear Hkey ]
        |]
    end; eauto.
Qed.

Lemma update_of_found c i payload s old :
  lookup_row c i (db s) = Some old →
  update_of c i payload s =
    match patch_body (Some (loaded old)) payload s with
    | (inl e, s2) =>
        (inl (DatabaseOperationError (update_prefix c +:+ str e)),
         MkSession (db s2) (id_source s2) [])
    | (inr o, s2) => (inr o, s2)
    end.
Proof.
  intros Hl. destruct (decide (c = Department)) as [->|Hc].
  - unfold update_of. rewrite update_department_eq.
    change DepartmentService.get_by_id with (get_by_id_of Department).
    by rewrite get_by_id_eq, Hl.
  - rewrite update_outside_eq by done. by rewrite get_by_id_eq, Hl.
Qed.

Lemma update_of_clean_found c i payload s old :
  pending s = [] → lookup_row c i (db s) = Some old →
  update_of c i payload s =
    match flush_op (db s) (id_source s) (OpAdd (patched (loaded old) payload)) with
    | (inl d, gen) =>
        (inl (DatabaseOperationError (update_prefix c +:+ d)), MkSession (db s) gen [])
    | (inr (st', o'), gen) => (inr (Some o'), MkSession st' gen [])
    end.
Proof.
  intros Hp Hl. rewrite (update_of_found _ _ _ _ _ Hl), patch_body_eq, write_back_eq by done.
  by destruct (flush_op _ _ _) as [[d|[st' o']] gen].
Qed.

Lemma patched_cls_identity old payload :
  cls (patched (loaded old) payload) = row_cls old ∧
  identity (patched (loaded old) payload) = Some (row_id old).
Proof.
  destruct (foldl_setattr_cls_identity (model_dump_exclude_unset payload) (loaded old))
    as [H1 H2]. unfold patched. by rewrite H1, H2.
Qed.

Lemma existsb_false_elem {A} (f : A → bool) (l : list A) x :
  existsb f l = false → x ∈ l → f x = false.
Proof.
  intros H Hx. destruct (f x) eqn:E; [|done]. rewrite <- H. symmetry.
  apply existsb_exists. exists x. split; [by apply list_elem_of_In|done].
Qed.

(** The flush of an update, once the row is found: nothing is written
    when no attribute is modified. *)
Lemma flush_patched st gen old payload :
  lookup_row (row_cls old) (row_id old) st = Some old →
  flush_op st gen (OpAdd (patched (loaded old) payload)) =
    if existsb (modified (patched (loaded old) payload) old) (model_fields (row_cls old))
    then match update_row st (patched (loaded old) payload) old with
         | inl d => (inl d, gen)
         | inr r =>
             match sql_update st (row_id old) r with
             | inl d => (inl d, gen)
             | inr st' => (inr (st', persistent (patched (loaded old) payload) r), gen)
             end
         end
    else (inr (st, persistent (patched (loaded old) payload) old), gen).
Proof.
  intros Hl. destruct (patched_cls_identity old payload) as [Hc Hi].
  unfold flush_op. by rewrite Hi, Hc, Hl.
Qed.

Lemma update_of_success c i payload s o' s' :
  pending s = [] →
  update_of c i payload s = (inr (Some o'), s') →
  ∃ old new,
    lookup_row c i (db s) = Some old ∧
    o' = persistent (patched (loaded old) payload) new ∧
    row_cls new = c ∧
    lookup_row c (row_id new) (db s') = Some new ∧
    (db s' = db s ∨ sql_update (db s) i new = inr (db s')) ∧
    ∀ k, k ∈ model_fields c →
         if modified (patched (loaded old) payload) old k
         then column_value (db s) c k (getattr (patched (loaded old) payload) k)
              = Some (getattr (loaded new) k)
         else getattr (loaded new) k = getattr (loaded old) k.
Proof.
  intros Hp Hu. destruct (lookup_row c i (db s)) as [old|] eqn:Hl.
  - rewrite (update_of_clean_found _ _ _ _ _ Hp Hl) in Hu.
    pose proof (lookup_row_cls _ _ _ _ Hl) as Hc.
    pose proof (lookup_row_id _ _ _ _ Hl) as Hi. destruct Hc, Hi.
    rewrite (flush_patched _ _ _ _ Hl) in Hu.
    set (o := patched (loaded old) payload) in *.
    destruct (existsb (modified o old) _) eqn:Hm.
    + destruct (update_row (db s) o old) as [d|new] eqn:Hb; [done|].
      destruct (sql_update (db s) (row_id old) new) as [d|st'] eqn:Hs; [done|].
      injection Hu as <- <-. exists old, new.
      pose proof (update_row_cls _ _ _ _ Hb) as Hnc.
      split; [done|]. split; [done|]. split; [done|]. split; [|split].
      * rewrite <- Hnc. by apply sql_update_lookup in Hs.
      * by right.
      * intros k Hk. by apply (update_row_load (db s)).
    + injection Hu as <- <-. exists old, old.
      split; [done|]. split; [done|]. split; [done|]. split; [done|].
      split; [by left|]. intros k Hk.
      unfold o in Hm. by rewrite (existsb_false_elem _ _ _ Hm Hk).
  - destruct (missing_row_outcomes c i payload s Hl) as (_ & Hm & _).
    rewrite Hm in Hu. by destruct (decide (c = Department)).
Qed.

Lemma id_is_model_field c : "id" ∈ model_fields c.
Proof. destruct c; by left. Qed.

Lemma update_of_failure c i payload s old e s' :
  pending s = [] →
  lookup_row c i (db s) = Some old →
  update_of c i payload s = (inl e, s') → db s' = db s.
Proof.
  intros Hp Hl. rewrite (update_of_found _ _ _ _ _ Hl), patch_body_eq, write_back_eq by done.
  destruct (flush_op _ _ _) as [[d|[st' o']] gen]; [|done]. by intros [= <- <-].
Qed.

Lemma modified_patched old payload k :
  k ∈ model_fields (cls payload) →
  modified (patched (loaded old) payload) old k
  = bool_decide (k ∈ fields_set payload ∧ getattr payload k ≠ getattr (loaded old) k).
Proof.
  intros Hk. unfold modified. rewrite getattr_patched.
  destruct (decide (k ∈ fields_set payload)) as [Hs|Hs].
  - rewrite decide_True by done. apply bool_decide_ext. tauto.
  - rewrite decide_False by tauto.
    rewrite bool_decide_eq_false_2 by (by intros []).
    rewrite bool_decide_eq_false_2; [done|tauto].
Qed.

(** C8. [update] is a merge-patch. For a stored record and any payload
    of the same model: if the call returns, it returns an instance in
    which every field that the payload sets explicitly to a value other
    than the stored one holds the payload's value as the store took it,
    and every other field holds its previous value, and reading the
    record back by its id yields the same attributes; if the call
    raises, the tables are as before. And the call does return when the
    payload changes only fields under no key constraint, to values the
    store takes. *)
Theorem update_is_merge_patch (c : Entity) (i : Z) (payload old : Obj)
    (s : Session) :
  pending s = [] →
  cls payload = c →
  get_by_id_of c i s = (inr (Some old), s) →
  match update_of c i payload s with
  | (inl e, s') => db s' = db s
  | (inr None, s') => False
  | (inr (Some o'), s') =>
      (∀ k, k ∈ model_fields c →
            if decide (k ∈ fields_set payload ∧ getattr payload k ≠ getattr old k)
            then column_value (db s) c k (getattr payload k) = Some (getattr o' k)
            else getattr o' k = getattr old k) ∧
      ∃ i' stored,
        getattr o' "id" = VInt i' ∧
        get_by_id_of c i' s' = (inr (Some stored), s') ∧
        attrs stored = attrs o'
  end ∧
  ((∀ k, k ∈ model_fields c → k ∈ fields_set payload →
         getattr payload k ≠ getattr old k →
         (k ∉ key_fields c) ∧ is_Some (column_value (db s) c k (getattr payload k))) →
   ∃ o' s', update_of c i payload s = (inr (Some o'), s')).
Proof.
  intros Hp Hc Hg. rewrite get_by_id_eq in Hg.
  destruct (lookup_row c i (db s)) as [old_row|] eqn:Hold; [|done].
  injection Hg as <-. split.
  - destruct (update_of c i payload s) as [[e|[o'|]] s'] eqn:Hu.
    + by eapply update_of_failure.
    + destruct (update_of_success _ _ _ _ _ _ Hp Hu)
        as (old' & new & Hl & -> & Hnc & Hl' & _ & Hfields).
      rewrite Hold in Hl. injection Hl as <-. split.
      * intros k Hk. specialize (Hfields k Hk).
        rewrite modified_patched in Hfields by (by rewrite Hc).
        rewrite getattr_persistent. case_bool_decide as Hm.
        -- rewrite decide_True by done. rewrite <- Hfields.
           rewrite getattr_patched, decide_True; [done|].
           rewrite Hc. tauto.
        -- by rewrite decide_False.
      * exists (row_id new), (loaded new). split; [|split].
        -- by rewrite getattr_persistent, getattr_loaded_id.
        -- by rewrite get_by_id_eq, Hl'.
        -- done.
    + rewrite (update_of_found _ _ _ _ _ Hold) in Hu.
      destruct (patch_body _ _ _) as [[e|o] s2] eqn:Hb; [done|].
      injection Hu as -> <-. by apply patch_body_not_None in Hb.
  - intros Htaken. rewrite (update_of_clean_found _ _ _ _ _ Hp Hold).
    pose proof (lookup_row_cls _ _ _ _ Hold) as Hrc.
    pose proof (lookup_row_id _ _ _ _ Hold) as Hri. destruct Hrc, Hri.
    rewrite (flush_patched _ _ _ _ Hold).
    set (o := patched (loaded old_row) payload) in *.
    destruct (existsb (modified o old_row) _); [|eauto].
    destruct (update_row_unmodified (db s) o old_row) as (r & Hr & Hid & Hfk).
    { intros k Hk Hm. unfold o in Hm. rewrite modified_patched in Hm by (by rewrite Hc).
      apply bool_decide_eq_true in Hm as [Hset Hne].
      destruct (Htaken k Hk Hset Hne) as [Hkey Hsome]. split; [done|].
      unfold o. rewrite getattr_patched, decide_True; [done|]. by rewrite Hc. }
    rewrite Hr. unfold sql_update.
    rewrite (update_row_cls _ _ _ _ Hr), Hold, Hid, Hfk.
    rewrite (bool_decide_eq_false_2 (row_id old_row ≠ row_id old_row)) by (by intros []).
    cbn [andb].
    replace (forallb _ (fk_targets old_row)) with true; [eauto|].
    symmetry. apply forallb_forall. intros t Ht. apply list_elem_of_In in Ht.
    by rewrite bool_decide_eq_true_2.
Qed.

(** ** The hiring report *)

(** C2 on the code. The hiring report never gets to run its query.
    Building the statement looks up [quarter] on the hire date column,
    and a column has no such attribute (nor [count], nor [year]): the
    [AttributeError] is caught by the method's own [except] and comes
    out as [DatabaseOperationError], for every year and whatever the
    store holds, and the route answers 400. No group is ever returned. *)
Theorem hires_report_always_raises (year : Z) (s : Session) :
  EmployeeService.get_hired_by_quarter year s
  = (inl (DatabaseOperationError
            ("Error retrieving hiring statistics: "
             +:+ "Neither 'InstrumentedAttribute' object nor 'Comparator' object "
             +:+ "associated with Employee.hire_datetime has an attribute 'quarter'")),
     s) ∧
  (∃ detail,
     EmployeeRoutes.get_hired_by_quarter year s = (inl (HTTPException 400 detail), s)) ∧
  Forall (λ name, name ∉ column_operators) ["quarter"; "count"; "year"].
Proof.
  split; [reflexivity|]. split; [eexists; reflexivity|].
  apply (bool_decide_unpack _). by vm_compute.
Qed.

(** ** The statements at the worked inputs *)

Lemma import_is_resilient_per_row_witness :
  ∃ outcomes s',
    row_outcomes (attempt_of Department) example_departments example_session
    = (outcomes, s') ∧
    length outcomes = length example_departments ∧
    (∀ (k : nat) row,
       example_departments !! k = Some row →
       outcomes !! k
       = Some (attempt_of Department row
                 (row_outcomes (attempt_of Department) (take k example_departments)
                               example_session).2).1) ∧
    upload_of example_read_csv Department example_file example_session
    = (inr (upload_report (successes outcomes) (failures outcomes)),
       MkSession (db s') (id_source s') []).
Proof.
  apply (import_is_resilient_per_row example_read_csv Department example_file
           "csv" example_departments example_session); reflexivity.
Defined.

(** The second of the three department rows fails on its duplicate id;
    the third is imported all the same. *)
Example department_rows_outcomes :
  (λ outcome, match outcome with inl e => Some e | inr _ => None end)
    <$> example_outcomes.1
  = [None;
     Some (DatabaseOperationError
             "Error creating department: duplicate key value violates unique constraint");
     None] ∧
  successes example_outcomes.1 = 2 ∧ failures example_outcomes.1 = 1.
Proof. by vm_compute. Qed.

Example department_upload_with_duplicate :
  (upload_department_csv example_read_csv example_file example_session).1
  = inr [("status", "success"); ("successful_imports", "2"); ("failed_imports", "1")] ∧
  departments (db (upload_department_csv example_read_csv example_file example_session).2)
  = [MkDepartment 1 "Engineering"; MkDepartment 2 "Sales"; MkDepartment 3 "Support"].
Proof. by vm_compute. Qed.

Lemma upload_report_counts_witness :
  (∃ (n m : nat) s',
     upload_of example_read_csv Department example_file example_session
     = (inr [("status", "success");
             ("successful_imports", pretty n);
             ("failed_imports", pretty m)], s') ∧
     n + m = length example_departments) ∧
  (∀ row counts s1, ∃ s2,
     import_row (attempt_of Department) row counts s1 = (inr (S counts.1, counts.2), s2) ∨
     import_row (attempt_of Department) row counts s1 = (inr (counts.1, S counts.2), s2)).
Proof.
  apply (upload_report_counts example_read_csv Department example_file "csv");
    reflexivity.
Defined.

Lemma upload_fatal_error_rolls_back_witness :
  upload_of example_read_csv Job example_unreadable example_session
  = server_error (OtherError "stream closed") example_session ∧
  ∀ e s',
    upload_of example_read_csv Job example_unreadable example_session = (inl e, s') →
    (∃ detail, e = HTTPException 500 detail) ∧
    pending s' = [] ∧ db s' = db example_session.
Proof.
  destruct (upload_fatal_error_rolls_back example_read_csv Job example_unreadable
              example_session) as (H1 & _ & H3).
  split; [apply H1; reflexivity|exact H3].
Defined.

Lemma employee_upload_inserts_nothing_witness :
  ∃ s', upload_employee_csv example_read_csv example_file example_session
        = (inr (upload_report 0 (length example_employees)), s') ∧
        db s' = db example_session.
Proof.
  apply (employee_upload_inserts_nothing example_read_csv example_file "csv");
    reflexivity.
Defined.

(** The same first row, built with the field's own name, is accepted. *)
Example employee_with_hire_datetime_is_created :
  employees (db (EmployeeService.create (example_employee 1) example_session).2)
  = [MkEmployee 1 "Ann" example_hire 1 1].
Proof. by vm_compute. Qed.

Lemma create_failure_wraps_and_rolls_back_witness :
  ∃ s', create_of Department example_duplicate_department example_session
        = (inl (DatabaseOperationError
                  (create_prefix Department
                   +:+ str (SQLAlchemyError "duplicate key value violates unique constraint"))),
           s') ∧
        pending s' = [] ∧ db s' = db example_session.
Proof.
  apply (create_failure_wraps_and_rolls_back Department example_duplicate_department
           example_session
           (SQLAlchemyError "duplicate key value violates unique constraint")
           (MkSession example_store (λ _, []) [OpAdd example_duplicate_department])).
  reflexivity.
Defined.

Lemma missing_id_errors_witness :
  get_by_id_of Employee 7 example_session = (inl (not_found Employee 7), example_session) ∧
  update_of Employee 7 (example_employee 1) example_session =
    (if decide (Employee = Department)
     then (inl (DatabaseOperationError
                  (update_prefix Employee +:+ str (not_found Employee 7))),
           MkSession (db example_session) (id_source example_session) [])
     else (inl (not_found Employee 7), example_session)) ∧
  delete_of Employee 7 example_session =
    (if decide (Employee = Department)
     then (inl (not_found Employee 7), example_session)
     else (inl (DatabaseOperationError
                  (delete_prefix Employee +:+ str (not_found Employee 7))),
           MkSession (db example_session) (id_source example_session) [])).
Proof.
  apply (missing_id_errors Employee 7 (example_employee 1) example_session).
  vm_compute. by intros ?%elem_of_nil.
Defined.

(** Deleting a missing employee or job, or updating a missing department,
    answers with [DatabaseOperationError]; the sibling methods answer
    with [ResourceNotFoundError]. *)
Example missing_id_on_delete_and_update :
  (EmployeeService.delete 7 example_session).1
  = inl (DatabaseOperationError "Error deleting employee: Employee with ID 7 not found") ∧
  (JobService.delete 7 example_session).1
  = inl (DatabaseOperationError "Error deleting job: Job with ID 7 not found") ∧
  (DepartmentService.update 7 example_duplicate_department example_session).1
  = inl (DatabaseOperationError "Error updating department: Department with ID 7 not found") ∧
  (DepartmentService.delete 7 example_session).1
  = inl (ResourceNotFoundError "Department with ID 7 not found") ∧
  (EmployeeService.update 7 (example_employee 1) example_session).1
  = inl (ResourceNotFoundError "Employee with ID 7 not found") ∧
  (JobService.update 7 example_job_update example_session).1
  = inl (ResourceNotFoundError "Job with ID 7 not found").
Proof. by vm_compute. Qed.

Lemma update_is_merge_patch_witness :
  match update_of Job 1 example_job_update example_session with
  | (inl e, s') => db s' = db example_session
  | (inr None, s') => False
  | (inr (Some o'), s') =>
      (∀ k, k ∈ model_fields Job →
            if decide (k ∈ fields_set example_job_update ∧
                       getattr example_job_update k ≠ getattr example_stored_job k)
            then column_value (db example_session) Job k (getattr example_job_update k)
                 = Some (getattr o' k)
            else getattr o' k = getattr example_stored_job k) ∧
      ∃ i' stored,
        getattr o' "id" = VInt i' ∧
        get_by_id_of Job i' s' = (inr (Some stored), s') ∧
        attrs stored = attrs o'
  end ∧
  ∃ o' s', update_of Job 1 example_job_update example_session = (inr (Some o'), s').
Proof.
  destruct (update_is_merge_patch Job 1 example_job_update example_stored_job
              example_session) as [Hmerge Hreturns]; [reflexivity..|].
  split; [exact Hmerge|]. apply Hreturns. intros k Hk Hset Hne.
  apply elem_of_cons in Hk as [->|Hk].
  { apply (bool_decide_pack _) in Hset. by vm_compute in Hset. }
  apply elem_of_cons in Hk as [->|Hk]; [|by apply elem_of_nil in Hk].
  split; [apply (bool_decide_unpack _); by vm_compute|]. by eexists.
Defined.

(** Creating job 1 titled A, updating it with only the title B, then
    reading it yields job 1 titled B. *)
Example create_update_read_job :
  let s0 := MkSession empty_store (λ _, []) [] in
  let s1 := (JobService.create (construct Job [("id", VInt 1); ("job", VStr "A")]) s0).2 in
  let s2 := (JobService.update 1 example_job_update s1).2 in
  jobs (db s2) = [MkJob 1 "B"] ∧
  match (JobService.get_by_id 1 s2).1 with
  | inr (Some o) => getattr o "id" = VInt 1 ∧ getattr o "job" = VStr "B"
  | _ => False
  end.
Proof. by vm_compute. Qed.

(** Job 1 titled A, updated with only the title B, reads back as job 1
    titled B. *)
Example update_job_title_only :
  jobs (db example_updated.2) = [MkJob 1 "B"] ∧
  getattr example_updated_job "id" = VInt 1 ∧
  getattr example_updated_job "job" = VStr "B".
Proof. by vm_compute. Qed.

Lemma create_employee_checks_foreign_keys_witness :
  ∃ message s',
    EmployeeService.create (example_employee 9) example_session
    = (inl (DatabaseOperationError message), s') ∧
    db s' = db example_session ∧
    employees (db s') = employees (db example_session).
Proof.
  apply (create_employee_checks_foreign_keys (example_employee 9) example_session);
    [reflexivity|reflexivity|reflexivity|].
  left. intros z Hz. vm_compute in Hz. injection Hz as <-.
  vm_compute. intros H. inversion H as [|? ? ? H']; subst. inversion H'.
Defined.

(** A store that reads the string 1 as the integer 1 takes an employee
    whose department id is that string; one that writes the integer 5 as
    the text 5 takes a department titled with that integer. *)
Example values_of_another_type_are_converted :
  employees (db (EmployeeService.create example_string_key example_session).2)
  = [MkEmployee 1 "Ann" example_hire 1 1] ∧
  departments (db (DepartmentService.create example_numeric_title example_session).2)
  = [MkDepartment 1 "Engineering"; MkDepartment 4 "5"].
Proof. by vm_compute. Qed.

Example hires_2021_request :
  (EmployeeRoutes.get_hired_by_quarter 2021 example_hires).1
  = inl (HTTPException 400
           ("Error retrieving hiring statistics: "
            +:+ "Neither 'InstrumentedAttribute' object nor 'Comparator' object "
            +:+ "associated with Employee.hire_datetime has an attribute 'quarter'")).
Proof. reflexivity. Qed.

(** * Further properties of the services and routes *)

(** ** Which exceptions a computation can raise *)

Lemma raises_only_weaken {A} (P Q : Exn → Prop) (m : M A) :
  (∀ e, P e → Q e) → raises_only P m → raises_only Q m.
Proof. intros HPQ Hm s e s' H. apply HPQ. by eapply Hm. Qed.

Lemma raises_only_ret {A} P (a : A) : raises_only P (mret a).
Proof. by intros s e s'. Qed.

Lemma raises_only_raise {A} (P : Exn → Prop) e : P e → raises_only P (@raise A e).
Proof. by intros He s e' s' [= <- _]. Qed.

Lemma raises_only_bind {A B} P (m : M A) (k : A → M B) :
  raises_only P m → (∀ a, raises_only P (k a)) → raises_only P (m ≫= k).
Proof.
  intros Hm Hk s e s'. unfold mbind, M_bind, bind.
  destruct (m s) as [[e1|a] s1] eqn:Hms.
  - intros [= <- _]. by eapply Hm.
  - intros Hka. by eapply Hk.
Qed.

Lemma raises_only_try_except {A} P (body : M A) handler :
  (∀ e, raises_only P (handler e)) → raises_only P (try_except body handler).
Proof.
  intros Hh s e s'. unfold try_except.
  destruct (body s) as [[e1|a] s1]; [|done]. intros H. by eapply Hh.
Qed.

Lemma raises_only_try_except_of {A} P Q catches (body : M A) handler :
  raises_only Q body → (∀ e, Q e → catches e = true) →
  (∀ e, raises_only P (handler e)) →
  raises_only P (try_except_of catches body handler).
Proof.
  intros Hb Hc Hh s e s'. unfold try_except_of.
  destruct (body s) as [[e1|a] s1] eqn:Hbs; [|done].
  rewrite (Hc e1) by (by eapply Hb). intros H. by eapply Hh.
Qed.

Lemma session_rollback_then_raise {A} (P : Exn → Prop) e :
  P e → raises_only P (session_rollback;; @raise A e).
Proof. by intros He s e' s' [= <- _]. Qed.

Lemma create_raises_only c o :
  raises_only (λ e, is_DatabaseOperationError e = true) (create_of c o).
Proof.
  destruct c; unfold create_of, DepartmentService.create, JobService.create,
    EmployeeService.create; apply raises_only_try_except; intros e;
    by apply session_rollback_then_raise.
Qed.

Lemma get_by_id_raises_only c i :
  raises_only (λ e, is_ResourceNotFoundError e = true) (get_by_id_of c i).
Proof.
  intros s e s'. rewrite get_by_id_eq. destruct (lookup_row c i (db s)); [done|].
  by intros [= <- _].
Qed.

Lemma update_raises_only c i payload :
  raises_only (λ e, is_ResourceNotFoundError e || is_DatabaseOperationError e = true)
              (update_of c i payload).
Proof.
  assert (∀ c, raises_only
            (λ e, is_ResourceNotFoundError e || is_DatabaseOperationError e = true)
            (get_by_id_of c i)) as Hg.
  { intros c'. eapply raises_only_weaken; [|apply get_by_id_raises_only].
    by intros e ->. }
  destruct c; unfold update_of, DepartmentService.update, JobService.update,
    EmployeeService.update.
  - apply raises_only_try_except. intros e. by apply session_rollback_then_raise.
  - apply raises_only_bind; [apply (Hg Job)|]. intros existing.
    destruct (negb _); [apply raises_only_ret|].
    apply raises_only_try_except. intros e. by apply session_rollback_then_raise.
  - apply raises_only_bind; [apply (Hg Employee)|]. intros existing.
    destruct (negb _); [apply raises_only_ret|].
    apply raises_only_try_except. intros e. by apply session_rollback_then_raise.
Qed.

Lemma delete_raises_only c i :
  raises_only (λ e, is_ResourceNotFoundError e || is_DatabaseOperationError e = true)
              (delete_of c i).
Proof.
  destruct c; unfold delete_of, DepartmentService.delete, JobService.delete,
    EmployeeService.delete.
  - apply raises_only_bind.
    { eapply raises_only_weaken; [|apply (get_by_id_raises_only Department)].
      by intros e ->. }
    intros department. destruct (negb _); [by apply raises_only_raise|].
    apply raises_only_try_except. intros e. by apply session_rollback_then_raise.
  - apply raises_only_try_except. intros e. by apply session_rollback_then_raise.
  - apply raises_only_try_except. intros e. by apply session_rollback_then_raise.
Qed.

(** X1. The create, update and delete routes of the three entities and
    the hiring report route answer an error only with status 400, the
    get routes only with status 404: no exception of the services
    escapes a route as anything else. *)
Theorem crud_routes_raise_only_http_errors (c : Entity) (i year : Z) (o payload : Obj) :
  raises_only (λ e, ∃ detail, e = HTTPException 400 detail) (create_route c o) ∧
  raises_only (λ e, ∃ detail, e = HTTPException 404 detail) (get_route c i) ∧
  raises_only (λ e, ∃ detail, e = HTTPException 400 detail) (update_route c i payload) ∧
  raises_only (λ e, ∃ detail, e = HTTPException 400 detail) (delete_route c i) ∧
  raises_only (λ e, ∃ detail, e = HTTPException 400 detail)
              (EmployeeRoutes.get_hired_by_quarter year).
Proof.
  assert (∀ A code (e : Exn),
    raises_only (λ e', ∃ detail, e' = HTTPException code detail)
                (@raise A (HTTPException code (str e)))) as Hr.
  { intros A code e. apply raises_only_raise. eauto. }
  split; [|split; [|split; [|split]]].
  - pose proof (create_raises_only c o) as H.
    destruct c; eapply raises_only_try_except_of; eauto.
  - pose proof (get_by_id_raises_only c i) as H.
    destruct c; eapply raises_only_try_except_of; eauto.
  - pose proof (update_raises_only c i payload) as H.
    destruct c; eapply raises_only_try_except_of; eauto.
  - pose proof (delete_raises_only c i) as H.
    destruct c; eapply raises_only_try_except_of; eauto.
  - apply raises_only_try_except. apply Hr.
Qed.

(** ** Routes on top of the services *)

Lemma try_except_of_inr {A} catches (body : M A) handler s a s1 :
  body s = (inr a, s1) → try_except_of catches body handler s = (inr a, s1).
Proof. intros H. unfold try_except_of. by rewrite H. Qed.

Lemma try_except_of_caught {A} catches (body : M A) handler s e s1 :
  body s = (inl e, s1) → catches e = true →
  try_except_of catches body handler s = handler e s1.
Proof. intros H Hc. unfold try_except_of. by rewrite H, Hc. Qed.

Lemma try_except_of_inr_inv {A} catches (body : M A) (handler : Exn → M A) s a s1 :
  (∀ e s0, ∃ e' s0', handler e s0 = (inl e', s0')) →
  try_except_of catches body handler s = (inr a, s1) → body s = (inr a, s1).
Proof.
  intros Hh. unfold try_except_of. destruct (body s) as [[e|a'] s'] eqn:Hb; [|done].
  destruct (catches e); [|done]. destruct (Hh e s') as (e' & s0' & ->). done.
Qed.

Lemma create_route_eq c o s :
  create_route c o s =
    try_except_of is_DatabaseOperationError (create_of c o)
                  (λ e, raise (HTTPException 400 (str e))) s.
Proof. by destruct c. Qed.

Lemma get_route_eq c i s :
  get_route c i s =
    try_except_of is_ResourceNotFoundError (get_by_id_of c i)
                  (λ e, raise (HTTPException 404 (str e))) s.
Proof. by destruct c. Qed.

Lemma update_route_eq c i payload s :
  update_route c i payload s =
    try_except_of (λ e, is_ResourceNotFoundError e || is_DatabaseOperationError e)
                  (update_of c i payload)
                  (λ e, raise (HTTPException 400 (str e))) s.
Proof. by destruct c. Qed.

Lemma delete_route_eq c i s :
  delete_route c i s =
    try_except_of (λ e, is_ResourceNotFoundError e || is_DatabaseOperationError e)
                  (delete_of c i)
                  (λ e, raise (HTTPException 400 (str e))) s.
Proof. by destruct c. Qed.

(** X6. For an id that no row carries, the get route answers 404 with
    the not-found message, while the update and delete routes answer
    400, for every entity; the store is left as it was. *)
Theorem missing_id_statuses (c : Entity) (i : Z) (payload : Obj) (s : Session) :
  i ∉ table_ids c (db s) →
  get_route c i s = (inl (HTTPException 404 (str (not_found c i))), s) ∧
  (∃ detail s', update_route c i payload s = (inl (HTTPException 400 detail), s') ∧
                db s' = db s) ∧
  (∃ detail s', delete_route c i s = (inl (HTTPException 400 detail), s') ∧
                db s' = db s).
Proof.
  intros Hi. apply lookup_row_None in Hi.
  destruct (missing_row_outcomes c i payload s Hi) as (Hg & Hu & Hd).
  split; [|split].
  - rewrite get_route_eq. by rewrite (try_except_of_caught _ _ _ _ _ _ Hg).
  - rewrite update_route_eq. destruct (decide (c = Department));
      rewrite (try_except_of_caught _ _ _ _ _ _ Hu) by done; eauto.
  - rewrite delete_route_eq. destruct (decide (c = Department));
      rewrite (try_except_of_caught _ _ _ _ _ _ Hd) by done; eauto.
Qed.

(** ** Creating, then reading *)

Lemma insert_key_given st o gen i gen' :
  insert_key st o gen = (Some i, gen') → getattr o "id" ≠ VNone →
  integer_input st (getattr o "id") = Some i.
Proof.
  unfold insert_key. intros H Hz.
  destruct (getattr o "id"); [done|by injection H as <- _..].
Qed.

Lemma column_value_id st c v :
  column_value st c "id" v = VInt <$> integer_input st v.
Proof. by destruct c. Qed.

Lemma get_session_eq {A} st gen (route : M A) :
  get_session st gen route =
    ((route (MkSession st gen [])).1,
     MkSession (db (route (MkSession st gen [])).2)
               (id_source (route (MkSession st gen [])).2) []).
Proof. unfold get_session. by destruct (route _). Qed.

(** X7. What a create request returns can be read back. When posting a
    new instance succeeds, the returned instance has an integer id, and
    it holds in every field the posted value as the store took it (for
    the id, when one was posted); a later get request for that id
    returns the same attributes. *)
Theorem post_then_get (c : Entity) (o o' : Obj) (st : Store)
    (gen : Entity → list Z) (s1 : Session) :
  cls o = c →
  identity o = None →
  get_session st gen (create_route c o) = (inr o', s1) →
  ∃ i,
    getattr o' "id" = VInt i ∧
    (∀ k, k ∈ model_fields c → k ≠ "id" ∨ getattr o "id" ≠ VNone →
          column_value st c k (getattr o k) = Some (getattr o' k)) ∧
    ∃ o'', get_session (db s1) (id_source s1) (get_route c i) = (inr (Some o''), s1) ∧
           attrs o'' = attrs o'.
Proof.
  intros Hc Hi. rewrite get_session_eq.
  set (s := MkSession st gen []).
  destruct (create_route c o s) as [r s'] eqn:Hr. cbn [fst snd].
  intros [= -> <-]. rewrite create_route_eq in Hr.
  apply try_except_of_inr_inv in Hr; [|by eauto].
  rewrite create_of_shape, create_shape_clean in Hr by done.
  unfold flush_op in Hr. rewrite Hi in Hr. cbn [db id_source s] in Hr.
  destruct (insert_key st o gen) as [[i|] gen1] eqn:Hkey; [|done].
  destruct (bind_row st o i) as [d|r] eqn:Hb; [done|].
  destruct (sql_insert st r) as [d|st'] eqn:Hs; [done|].
  injection Hr as <- <-.
  apply bind_row_cls_id in Hb as Hb'. destruct Hb' as [Hrc Hri].
  apply sql_insert_lookup in Hs. rewrite Hrc, Hri, Hc in Hs.
  exists i. cbn [db id_source]. split; [|split].
  - by rewrite getattr_persistent, getattr_loaded_id, Hri.
  - intros k Hk Hne. rewrite getattr_persistent.
    destruct (decide (k = "id")) as [->|Hk'].
    + destruct Hne as [?|Hne]; [done|].
      rewrite column_value_id, (insert_key_given _ _ _ _ _ Hkey Hne).
      by rewrite getattr_loaded_id, Hri.
    + rewrite <- Hc. apply (bind_row_load st o i); [done|by rewrite Hc|done].
  - exists (loaded r). rewrite get_session_eq, get_route_eq.
    rewrite (try_except_of_inr _ _ _ _ (Some (loaded r))
               (MkSession st' gen1 [])).
    + done.
    + rewrite get_by_id_eq. cbn [db]. by rewrite Hs.
Qed.

(** ** Deleting and updating touch one row *)

Section find_other_id.
Context {A : Type} (idf : A → Z).

Lemma find_id_filter_other (l : list A) key j :
  j ≠ key →
  List.find (λ x, bool_decide (idf x = j))
            (List.filter (λ x, negb (bool_decide (idf x = key))) l)
  = List.find (λ x, bool_decide (idf x = j)) l.
Proof.
  intros Hj. induction l as [|x l IH]; [done|]. cbn [List.filter List.find].
  destruct (decide (idf x = key)) as [Hx|Hx].
  - rewrite (bool_decide_eq_true_2 _ Hx). cbn [negb].
    rewrite bool_decide_eq_false_2 by congruence. done.
  - rewrite (bool_decide_eq_false_2 _ Hx). cbn [negb List.find]. by rewrite IH.
Qed.

Lemma find_id_rewritten_other (l : list A) key r j :
  j ≠ key → j ≠ idf r →
  List.find (λ x, bool_decide (idf x = j))
            (List.filter (λ x, negb (bool_decide (idf x = key))) l ++ [r])
  = List.find (λ x, bool_decide (idf x = j)) l.
Proof.
  intros Hj Hr. induction l as [|x l IH]; cbn [List.filter app List.find].
  - by rewrite bool_decide_eq_false_2 by congruence.
  - destruct (decide (idf x = key)) as [Hx|Hx].
    + rewrite (bool_decide_eq_true_2 _ Hx). cbn [negb].
      rewrite (bool_decide_eq_false_2 (idf x = j)) by congruence. done.
    + rewrite (bool_decide_eq_false_2 _ Hx). cbn [negb app List.find].
      by destruct (bool_decide (idf x = j)).
Qed.

Lemma find_id_NoDup (l : list A) x :
  NoDup (idf <$> l) → x ∈ l →
  List.find (λ y, bool_decide (idf y = idf x)) l = Some x.
Proof.
  induction l as [|y l IH]; [by intros _ ?%elem_of_nil|].
  rewrite fmap_cons, NoDup_cons. intros [Hy Hnd] Hx. cbn [List.find].
  apply elem_of_cons in Hx as [->|Hx].
  - by rewrite bool_decide_eq_true_2.
  - rewrite bool_decide_eq_false_2; [auto|].
    intros E. apply Hy. rewrite E. apply list_elem_of_fmap. eauto.
Qed.

End find_other_id.

Lemma lookup_remove_row_other st c key c' j :
  (c', j) ≠ (c, key) → lookup_row c' j (remove_row st c key) = lookup_row c' j st.
Proof.
  intros Hne. destruct c, c'; unfold lookup_row, remove_row;
    cbn [departments jobs employees]; try done.
  - rewrite (find_id_filter_other dep_id); [done|congruence].
  - rewrite (find_id_filter_other job_id); [done|congruence].
  - rewrite (find_id_filter_other emp_id); [done|congruence].
Qed.

Lemma lookup_replace_row_other st key r c' j :
  c' ≠ row_cls r ∨ (j ≠ key ∧ j ≠ row_id r) →
  lookup_row c' j (replace_row st key r) = lookup_row c' j st.
Proof.
  intros Hne. destruct r as [d|jb|e], c'; unfold lookup_row, replace_row;
    cbn [departments jobs employees row_cls row_id] in *; try done;
    destruct Hne as [?|[? ?]]; try done.
  - by rewrite (find_id_rewritten_other dep_id).
  - by rewrite (find_id_rewritten_other job_id).
  - by rewrite (find_id_rewritten_other emp_id).
Qed.

Lemma delete_of_found c i r s :
  pending s = [] → lookup_row c i (db s) = Some r →
  delete_of c i s =
    match sql_delete (db s) c i with
    | inl d => (inl (DatabaseOperationError (delete_prefix c +:+ d)),
                MkSession (db s) (id_source s) [])
    | inr st' => (inr (), MkSession st' (id_source s) [])
    end.
Proof.
  intros Hp Hr. destruct (decide (c = Department)) as [->|Hc].
  - unfold delete_of. rewrite delete_department_eq.
    change DepartmentService.get_by_id with (get_by_id_of Department).
    rewrite get_by_id_eq, Hr. cbn [truthy negb].
    rewrite (delete_core_eq _ _ _ _ Hp Hr).
    by destruct (sql_delete (db s) Department i).
  - rewrite delete_inside_eq by done. rewrite get_by_id_eq, Hr.
    rewrite (delete_core_eq _ _ _ _ Hp Hr).
    by destruct (sql_delete (db s) c i).
Qed.

(** X8. Deleting a stored record through its route. If an employee still
    refers to it (a department or a job), the request answers 400 and
    the store is unchanged; otherwise it succeeds, the record can no
    longer be looked up, and every other record of every table is as
    before. An employee can therefore always be deleted. *)
Theorem delete_stored_record (c : Entity) (i : Z) (r : Row) (s : Session) :
  pending s = [] →
  lookup_row c i (db s) = Some r →
  if referenced c i (db s)
  then ∃ detail s', delete_route c i s = (inl (HTTPException 400 detail), s') ∧
                    db s' = db s
  else ∃ s', delete_route c i s = (inr (), s') ∧
             lookup_row c i (db s') = None ∧
             ∀ c' j, (c', j) ≠ (c, i) →
                     lookup_row c' j (db s') = lookup_row c' j (db s).
Proof.
  intros Hp Hr. pose proof (delete_of_found c i r s Hp Hr) as Hd.
  rewrite delete_route_eq. unfold sql_delete in Hd. rewrite Hr in Hd.
  destruct (referenced c i (db s)).
  - rewrite (try_except_of_caught _ _ _ _ _ _ Hd) by done. eauto.
  - rewrite (try_except_of_inr _ _ _ _ _ _ Hd). eexists. split; [done|].
    cbn [db]. split; [apply lookup_remove_row|].
    intros c' j Hne. by apply lookup_remove_row_other.
Qed.

Lemma update_route_success c i payload s o' s' :
  pending s = [] →
  update_route c i payload s = (inr (Some o'), s') →
  ∃ r, row_cls r = c ∧ getattr o' "id" = VInt (row_id r) ∧
       (db s' = db s ∨ sql_update (db s) i r = inr (db s')).
Proof.
  intros Hp Hu. rewrite update_route_eq in Hu.
  apply try_except_of_inr_inv in Hu; [|by eauto].
  destruct (update_of_success _ _ _ _ _ _ Hp Hu)
    as (old & new & _ & -> & Hnc & _ & Hdb & _).
  exists new. split; [done|]. split; [|done].
  by rewrite getattr_persistent, getattr_loaded_id.
Qed.

(** X9. A successful update touches one record only: every record of
    another table, and every record of the same table under an id other
    than the old and the new id of the updated record, reads as before. *)
Theorem update_touches_one_record (c : Entity) (i : Z) (payload : Obj)
    (s : Session) (o' : Obj) (s' : Session) :
  pending s = [] →
  update_route c i payload s = (inr (Some o'), s') →
  ∀ c' j, c' ≠ c ∨ (j ≠ i ∧ getattr o' "id" ≠ VInt j) →
          lookup_row c' j (db s') = lookup_row c' j (db s).
Proof.
  intros Hp Hu c' j Hne.
  destruct (update_route_success _ _ _ _ _ _ Hp Hu) as (r & Hrc & Hid & [->|Hs]);
    [done|].
  unfold sql_update in Hs. destruct (lookup_row (row_cls r) i (db s)); [|done].
  repeat (match type of Hs with (if ?b then _ else _) = _ => destruct b end; try done).
  injection Hs as <-. apply lookup_replace_row_other. rewrite Hrc.
  destruct Hne as [?|[? Hj]]; [by left|right]. split; [done|].
  intros ->. by apply Hj.
Qed.

(** X10. An update whose payload sets no field changes nothing: on a
    table with unique ids it returns the stored record as it is and
    leaves the session and the store exactly as they were. *)
Theorem update_with_nothing_set (c : Entity) (i : Z) (payload : Obj)
    (old : Row) (s : Session) :
  pending s = [] →
  NoDup (table_ids c (db s)) →
  lookup_row c i (db s) = Some old →
  (∀ k, k ∈ model_fields (cls payload) → k ∉ fields_set payload) →
  update_route c i payload s = (inr (Some (loaded old)), s).
Proof.
  intros Hp Hnd Hl Hunset. rewrite update_route_eq.
  apply try_except_of_inr. rewrite (update_of_clean_found _ _ _ _ _ Hp Hl).
  assert (model_dump_exclude_unset payload = []) as Hdump.
  { destruct (model_dump_exclude_unset payload) as [|[k v] items] eqn:E; [done|].
    assert (k ∈ (model_dump_exclude_unset payload).*1) as Hk by (rewrite E; by left).
    apply model_dump_exclude_unset_keys in Hk as [Hk1 Hk2]. by destruct (Hunset k). }
  pose proof (lookup_row_cls _ _ _ _ Hl) as Hc.
  pose proof (lookup_row_id _ _ _ _ Hl) as Hi. destruct Hc, Hi.
  rewrite (flush_patched _ _ _ _ Hl).
  unfold patched. rewrite Hdump. cbn [foldl].
  replace (existsb (modified (loaded old) old) (model_fields (row_cls old)))
    with false.
  - destruct s as [st gen ps]. cbn in *. by subst ps.
  - symmetry. apply not_true_is_false. intros H.
    apply existsb_exists in H as (k & _ & Hk). unfold modified in Hk.
    by apply bool_decide_eq_true in Hk.
Qed.

(** X11. An update never takes over another record's id: when the
    payload sets the id to one that a different record of the table
    already carries, the request answers 400 and the store is unchanged. *)
Theorem update_onto_taken_id (c : Entity) (i j : Z) (payload : Obj)
    (old : Row) (s : Session) :
  pending s = [] →
  cls payload = c →
  lookup_row c i (db s) = Some old →
  "id" ∈ fields_set payload →
  getattr payload "id" = VInt j →
  j ≠ i →
  j ∈ table_ids c (db s) →
  ∃ detail s', update_route c i payload s = (inl (HTTPException 400 detail), s') ∧
               db s' = db s.
Proof.
  intros Hp Hc Hl Hset Hid Hji Hj. rewrite update_route_eq.
  enough (∃ msg s', update_of c i payload s = (inl (DatabaseOperationError msg), s') ∧
                    db s' = db s) as (msg & s' & Hu & Hdb).
  { rewrite (try_except_of_caught _ _ _ _ _ _ Hu) by done. eauto. }
  rewrite (update_of_clean_found _ _ _ _ _ Hp Hl).
  enough (∃ d gen, flush_op (db s) (id_source s) (OpAdd (patched (loaded old) payload))
                   = (inl d, gen)) as (d & gen & ->) by eauto.
  pose proof (lookup_row_cls _ _ _ _ Hl) as Hrc.
  pose proof (lookup_row_id _ _ _ _ Hl) as Hri. destruct Hrc, Hri.
  rewrite (flush_patched _ _ _ _ Hl).
  set (o := patched (loaded old) payload).
  assert (getattr o "id" = VInt j) as Hoj.
  { unfold o. rewrite getattr_patched, decide_True, Hid; [done|].
    split; [apply id_is_model_field|done]. }
  assert (modified o old "id" = true) as Hm.
  { unfold modified. rewrite Hoj, getattr_loaded_id.
    apply bool_decide_eq_true. congruence. }
  replace (existsb (modified o old) _) with true.
  2:{ symmetry. apply existsb_exists. exists "id".
      split; [apply list_elem_of_In, id_is_model_field|done]. }
  destruct (update_row (db s) o old) as [d|r] eqn:Hb; [eauto|].
  pose proof (update_row_load _ _ _ _ "id" Hb (id_is_model_field _)) as Hload.
  rewrite Hm, column_value_id, getattr_loaded_id, Hoj in Hload.
  unfold integer_input in Hload. case_decide; [|done].
  injection Hload as Hrj.
  unfold sql_update. rewrite (update_row_cls _ _ _ _ Hb), Hl, <- Hrj.
  rewrite (bool_decide_eq_true_2 (j ≠ row_id old)), (bool_decide_eq_true_2 (j ∈ _))
    by done.
  cbn [andb]. eauto.
Qed.

(** ** What an upload adds *)

Lemma construct_cls_identity c kwargs :
  cls (construct c kwargs) = c ∧ identity (construct c kwargs) = None.
Proof.
  unfold construct.
  generalize (list_to_map kwargs : gmap string Value). intros kw.
  assert (∀ fields o, cls (foldl (construct_field c kw) o fields) = cls o ∧
                      identity (foldl (construct_field c kw) o fields) = identity o) as H.
  { induction fields as [|f fields IH]; intros o; [done|]. cbn [foldl].
    destruct (IH (construct_field c kw o f)) as [-> ->].
    unfold construct_field. by repeat case_match. }
  apply H.
Qed.

Lemma table_rows_insert_row st r c' :
  table_rows c' (insert_row st r)
  = if decide (c' = row_cls r) then (table_rows c' st ++ [r])%list else table_rows c' st.
Proof.
  destruct r, c'; unfold table_rows, insert_row; cbn [departments jobs employees row_cls];
    try done; by rewrite fmap_app.
Qed.

Lemma create_transient_outcome c o s :
  pending s = [] → cls o = c → identity o = None →
  match create_of c o s with
  | (inl _, s') => pending s' = [] ∧ db s' = db s
  | (inr _, s') => pending s' = [] ∧ ∃ r, row_cls r = c ∧ db s' = insert_row (db s) r
  end.
Proof.
  intros Hp Hc Hi. rewrite create_of_shape, create_shape_clean by done.
  unfold flush_op. rewrite Hi.
  destruct (insert_key (db s) o (id_source s)) as [[i|] gen1]; [|done].
  destruct (bind_row (db s) o i) as [d|r] eqn:Hb; [done|].
  apply bind_row_cls_id in Hb as [Hrc _]. rewrite Hc in Hrc.
  unfold sql_insert. case_bool_decide; [done|].
  destruct (forallb _ _); [|done]. cbn [pending db]. eauto.
Qed.

Lemma attempt_of_outcome c row s :
  pending s = [] →
  match attempt_of c row s with
  | (inl _, s') => pending s' = [] ∧ db s' = db s
  | (inr _, s') => pending s' = [] ∧ ∃ r, row_cls r = c ∧ db s' = insert_row (db s) r
  end.
Proof.
  intros Hp.
  destruct c; unfold attempt_of, attempt_department, attempt_job, attempt_employee;
    munfold;
    repeat match goal with
    | |- context [getitem row ?k ?s0] =>
        let H := fresh in
        pose proof (getitem_state row k s0) as H;
        destruct (getitem row k s0) as [[?|?] ?]; simpl in H; subst; [done|]
    end.
  - change DepartmentService.create with (create_of Department).
    apply create_transient_outcome; [done|apply construct_cls_identity..].
  - change JobService.create with (create_of Job).
    apply create_transient_outcome; [done|apply construct_cls_identity..].
  - change EmployeeService.create with (create_of Employee).
    apply create_transient_outcome; [done|apply construct_cls_identity..].
Qed.

Lemma for_each_import_appends c rows counts s :
  pending s = [] →
  ∃ counts' s' added,
    for_each rows counts (import_row (attempt_of c)) s = (inr counts', s') ∧
    pending s' = [] ∧
    counts'.1 = counts.1 + length added ∧
    Forall (λ r, row_cls r = c) added ∧
    ∀ c', table_rows c' (db s')
          = if decide (c' = c) then (table_rows c' (db s) ++ added)%list
            else table_rows c' (db s).
Proof.
  revert counts s. induction rows as [|row rows IH]; intros counts s Hp.
  - exists counts, s, []. cbn [for_each]. split; [done|]. split; [done|].
    split; [simpl; lia|]. split; [done|]. intros c'. case_decide; [|done].
    by rewrite app_nil_r.
  - cbn [for_each]. unfold mbind, M_bind, bind. rewrite import_row_eq.
    pose proof (attempt_of_outcome c row s Hp) as Ho.
    destruct (attempt_of c row s) as [[e|o] s1].
    + destruct Ho as [Hp1 Hdb].
      destruct (IH (counts.1, S counts.2) s1 Hp1) as (c1 & s' & added & -> & ? & ? & ? & Ht).
      exists c1, s', added. rewrite Hdb in Ht. done.
    + destruct Ho as [Hp1 (r & Hrc & Hdb)].
      destruct (IH (S counts.1, counts.2) s1 Hp1) as (c1 & s' & added & -> & ? & Hn & ? & Ht).
      exists c1, s', (r :: added). split; [done|]. split; [done|].
      split; [cbn in *; lia|]. split; [by constructor|].
      intros c'. rewrite Ht, Hdb, table_rows_insert_row, Hrc.
      case_decide; [|done]. by rewrite <- app_assoc.
Qed.

(** X12. The success counter of an upload is the number of rows it
    added. After a successful upload of a readable, parseable file, the
    table of the entity is the old table followed by exactly
    [successful_imports] new rows, so no stored row was changed or
    removed, and the other two tables are as before. *)
Theorem upload_appends_imported_rows
    (read_csv : string → list string → Exn + list (gmap string Value))
    (c : Entity) (file : UploadFile) (contents : string)
    (df : list (gmap string Value)) (s : Session) :
  upload_read file = inr contents →
  read_csv contents (names_of c) = inr df →
  pending s = [] →
  ∃ (n m : nat) s' (added : list Row),
    upload_of read_csv c file s = (inr (upload_report n m), s') ∧
    length added = n ∧
    Forall (λ r, row_cls r = c) added ∧
    table_rows c (db s') = (table_rows c (db s) ++ added)%list ∧
    ∀ c', c' ≠ c → table_rows c' (db s') = table_rows c' (db s).
Proof.
  intros Hr Hc Hp. rewrite upload_of_eq, upload_csv_eq, Hr, Hc.
  destruct (for_each_import_appends c df (0, 0) s Hp)
    as ([n m] & s' & added & -> & Hp' & Hn & Hcls & Ht).
  rewrite (session_commit_clean _ Hp').
  exists n, m, (MkSession (db s') (id_source s') []), added.
  split; [done|]. cbn in Hn. split; [done|]. split; [done|]. cbn [db]. split.
  - by rewrite Ht, decide_True.
  - intros c' Hne. by rewrite Ht, decide_False.
Qed.

(** ** Listing *)

Lemma get_all_eq c offset limit s :
  get_all_of c offset limit s = session_exec_select c offset limit s.
Proof.
  destruct c; unfold get_all_of, DepartmentService.get_all, JobService.get_all,
    EmployeeService.get_all; munfold; by destruct (session_exec_select _ _ _ s) as [[?|?] ?].
Qed.

Lemma get_all_window c offset limit s :
  (0 ≤ offset)%Z → (0 ≤ limit)%Z →
  get_all_of c offset limit s
  = (inr (loaded <$> take (Z.to_nat limit)
                       (drop (Z.to_nat offset) (table_rows c (db s)))), s).
Proof.
  intros Ho Hl. rewrite get_all_eq. unfold session_exec_select.
  by rewrite !decide_False by lia.
Qed.


Lemma lookup_row_table c st r :
  NoDup (table_ids c st) → r ∈ table_rows c st →
  lookup_row c (row_id r) st = Some r.
Proof.
  destruct c; unfold table_rows, lookup_row; cbn [table_ids]; intros Hnd Hr;
    apply list_elem_of_fmap in Hr as (x & -> & Hx); cbn [row_id].
  - by rewrite (find_id_NoDup dep_id).
  - by rewrite (find_id_NoDup job_id).
  - by rewrite (find_id_NoDup emp_id).
Qed.

(** X14. Listing and reading agree. On a table with unique ids, every
    instance that [get_all] returns carries an integer id, and
    [get_by_id] with that id returns that very instance. *)
Theorem listed_records_can_be_got (c : Entity) (offset limit : Z)
    (s : Session) (page : list Obj) (s' : Session) :
  NoDup (table_ids c (db s)) →
  get_all_of c offset limit s = (inr page, s') →
  ∀ o, o ∈ page →
       ∃ i, getattr o "id" = VInt i ∧ get_by_id_of c i s = (inr (Some o), s).
Proof.
  intros Hnd. rewrite get_all_eq. unfold session_exec_select.
  repeat case_decide; try done. intros [= <- <-] o Ho.
  apply list_elem_of_fmap in Ho as (r & -> & Hr).
  apply subseteq_take, subseteq_drop in Hr.
  exists (row_id r). split.
  - unfold getattr. cbn [loaded attrs]. by rewrite load_row_id.
  - rewrite get_by_id_eq. by rewrite (lookup_row_table _ _ _ Hnd Hr).
Qed.

(** X15. A list request without query parameters uses offset 0 and
    limit 100: it never fails, returns at most 100 records, and returns
    the whole table, in order, when the table has at most 100 rows. *)
Theorem list_route_defaults (c : Entity) (s : Session) :
  ∃ page,
    list_route c None None s = (inr page, s) ∧
    (length page ≤ 100)%nat ∧
    ((length (table_rows c (db s)) ≤ 100)%nat → page = loaded <$> table_rows c (db s)).
Proof.
  assert (list_route c None None s = get_all_of c 0 100 s) as -> by (by destruct c).
  rewrite get_all_window by lia. eexists. split; [done|]. split.
  - rewrite length_fmap, length_take. lia.
  - intros Hlen. cbn [Z.to_nat drop]. by rewrite take_ge.
Qed.

(** ** The further properties at the worked inputs *)

Lemma missing_id_statuses_witness :
  get_route Employee 7 example_session
  = (inl (HTTPException 404 (str (not_found Employee 7))), example_session) ∧
  (∃ detail s',
     update_route Employee 7 (example_employee 1) example_session
     = (inl (HTTPException 400 detail), s') ∧ db s' = db example_session) ∧
  (∃ detail s',
     delete_route Employee 7 example_session = (inl (HTTPException 400 detail), s') ∧
     db s' = db example_session).
Proof.
  apply (missing_id_statuses Employee 7 (example_employee 1) example_session).
  vm_compute. by intros ?%elem_of_nil.
Defined.

Lemma post_then_get_witness :
  ∃ i,
    getattr example_posted "id" = VInt i ∧
    (∀ k, k ∈ model_fields Department →
          k ≠ "id" ∨ getattr example_new_department "id" ≠ VNone →
          column_value example_store Department k (getattr example_new_department k)
          = Some (getattr example_posted k)) ∧
    ∃ o'', get_session (db example_post.2) (id_source example_post.2)
                       (get_route Department i)
           = (inr (Some o''), example_post.2) ∧
           attrs o'' = attrs example_posted.
Proof.
  apply (post_then_get Department example_new_department example_posted
           example_store (λ _, []) example_post.2); by vm_compute.
Defined.

(** A department posted with an integer as its title is returned, and
    read back, with the text the store made of it. *)
Example post_numeric_title :
  match (get_session example_store (λ _, [])
           (create_route Department example_numeric_title)).1 with
  | inr o => getattr o "id" = VInt 4 ∧ getattr o "department" = VStr "5"
  | inl _ => False
  end.
Proof. by vm_compute. Qed.

Lemma delete_stored_record_witness :
  if referenced Department 1 (db example_session)
  then ∃ detail s',
         delete_route Department 1 example_session = (inl (HTTPException 400 detail), s') ∧
         db s' = db example_session
  else ∃ s',
         delete_route Department 1 example_session = (inr (), s') ∧
         lookup_row Department 1 (db s') = None ∧
         ∀ c' j, (c', j) ≠ (Department, 1%Z) →
                 lookup_row c' j (db s') = lookup_row c' j (db example_session).
Proof.
  apply (delete_stored_record Department 1 (RDepartment (MkDepartment 1 "Engineering"))
           example_session); reflexivity.
Defined.

Lemma update_touches_one_record_witness :
  lookup_row Department 1 (db example_updated.2)
  = lookup_row Department 1 (db example_session) ∧
  lookup_row Job 5 (db example_updated.2) = lookup_row Job 5 (db example_session).
Proof.
  split.
  - apply (update_touches_one_record Job 1 example_job_update example_session
             example_updated_job example_updated.2); [by vm_compute..|].
    by left.
  - apply (update_touches_one_record Job 1 example_job_update example_session
             example_updated_job example_updated.2); [by vm_compute..|].
    right. split; [done|]. by vm_compute.
Defined.

Lemma update_with_nothing_set_witness :
  update_route Job 1 example_empty_update example_session
  = (inr (Some (loaded (RJob (MkJob 1 "A")))), example_session).
Proof.
  apply (update_with_nothing_set Job 1 example_empty_update (RJob (MkJob 1 "A"))
           example_session).
  - reflexivity.
  - apply (bool_decide_unpack _). by vm_compute.
  - reflexivity.
  - intros k _. change (fields_set example_empty_update) with (∅ : gset string).
    apply not_elem_of_empty.
Defined.

(** The table lists an updated row after the rows that were not
    touched. *)
Example updated_row_is_listed_last :
  jobs (db (JobService.update 1 example_job_update example_two_jobs).2)
  = [MkJob 2 "B"; MkJob 1 "B"].
Proof. by vm_compute. Qed.

Lemma update_onto_taken_id_witness :
  ∃ detail s',
    update_route Job 1 example_id_update example_two_jobs
    = (inl (HTTPException 400 detail), s') ∧
    db s' = db example_two_jobs.
Proof.
  apply (update_onto_taken_id Job 1 2 example_id_update (RJob (MkJob 1 "A"))
           example_two_jobs);
    first [reflexivity | apply (bool_decide_unpack _); by vm_compute].
Defined.

Lemma upload_appends_imported_rows_witness :
  ∃ (n m : nat) s' (added : list Row),
    upload_of example_read_csv Department example_file example_session
    = (inr (upload_report n m), s') ∧
    length added = n ∧
    Forall (λ r, row_cls r = Department) added ∧
    table_rows Department (db s')
    = (table_rows Department (db example_session) ++ added)%list ∧
    ∀ c', c' ≠ Department →
          table_rows c' (db s') = table_rows c' (db example_session).
Proof.
  apply (upload_appends_imported_rows example_read_csv Department example_file "csv"
           example_departments example_session); reflexivity.
Defined.


Lemma listed_records_can_be_got_witness :
  ∃ i, getattr example_listed "id" = VInt i ∧
       get_by_id_of Employee i example_hires = (inr (Some example_listed), example_hires).
Proof.
  apply (listed_records_can_be_got Employee 0 2 example_hires example_page example_hires).
  - apply (bool_decide_unpack _). by vm_compute.
  - by vm_compute.
  - apply list_elem_of_lookup. exists 0. by vm_compute.
Defined.
